(** * WellWork: offline storage, sync queue, note handlers and note server

    A shallow embedding of the offline-sync mechanism of the WellWork
    application and of the note endpoints of its backend:

    - [frontend/src/offlineStorage.js]: [notesStorage], [sessionStorage],
      [syncQueue] and [retryFailedRequests];
    - the [Notes] component: [handleSave] and [handleDelete];
    - the [App] component: [checkHealth], the [onNoteSaved] callback and
      the log-out handler;
    - the backend: [POST /api/notes], [PUT /api/notes/:id] and
      [DELETE /api/notes/:id].

    The handlers are modelled on a storage that accepts every write and
    on passes of [retryFailedRequests] that run one after the other;
    [Quota] has the stores on a storage that may refuse a write,
    [Overlap] has passes that overlap, and [Wire] has the note endpoints
    on request bodies whose values are any JSON values.

    JavaScript strings are modelled as [string], one [ascii] per code unit
    (code units below 256).  The browser's [localStorage] is a finite map
    from keys to texts.  [JSON.stringify] and [JSON.parse] are modelled on
    a tree of JSON values and on typed records through encoders and
    decoders.  Network calls, the clock, [randomUUID] and [confirm] are
    inputs of the handlers. *)

From Stdlib Require Import String Ascii NArith List Bool Lia Decimal DecimalN.
From stdpp Require Import gmap strings list.

Local Open Scope string_scope.
Local Open Scope list_scope.

(** ** Characters and strings *)

Module Chars.

Definition code (c : ascii) : N := N_of_ascii c.

Definition quote : ascii := "034"%char.
Definition backslash : ascii := "092"%char.

Definition is_digit (c : ascii) : bool :=
  (48 <=? code c)%N && (code c <=? 57)%N.

(** The white space of the JSON grammar: tab, line feed, carriage
    return and space. *)
Definition is_json_ws (c : ascii) : bool :=
  (code c =? 9)%N || (code c =? 10)%N || (code c =? 13)%N || (code c =? 32)%N.

(** The code units below 256 that [String.prototype.trim] strips: tab,
    line feed, vertical tab, form feed, carriage return, space and the
    no-break space. *)
Definition is_trim_ws (c : ascii) : bool :=
  ((9 <=? code c)%N && (code c <=? 13)%N)
  || (code c =? 32)%N || (code c =? 160)%N.

Definition hex_digit (n : N) : ascii :=
  if (n <? 10)%N then ascii_of_N (48 + n) else ascii_of_N (87 + n).

Definition hex_value (c : ascii) : option N :=
  let n := code c in
  if (48 <=? n)%N && (n <=? 57)%N then Some (n - 48)%N
  else if (97 <=? n)%N && (n <=? 102)%N then Some (n - 87)%N
  else if (65 <=? n)%N && (n <=? 70)%N then Some (n - 55)%N
  else None.

End Chars.

(** ** JavaScript string operations used by the program *)

Module JsString.

Fixpoint dropWhile (p : ascii -> bool) (l : list ascii) : list ascii :=
  match l with
  | [] => []
  | c :: r => if p c then dropWhile p r else l
  end.

(** [s.trim()] *)
Definition trim (s : string) : string :=
  string_of_list_ascii
    (rev (dropWhile Chars.is_trim_ws
            (rev (dropWhile Chars.is_trim_ws (list_ascii_of_string s))))).

(** [s.startsWith(p)] *)
Definition startsWith (s p : string) : bool := String.prefix p s.

(** Truthiness of a string: the empty string is falsy. *)
Definition truthy (s : string) : bool :=
  match s with EmptyString => false | String _ _ => true end.

(** Truthiness of a string that may be [null] or [undefined]. *)
Definition present (o : option string) : bool :=
  match o with
  | Some text => truthy text
  | None => false
  end.

(** [array.findIndex(p)], with [None] for [-1]. *)
Fixpoint findIndex {A} (p : A -> bool) (l : list A) : option nat :=
  match l with
  | [] => None
  | x :: l' => if p x then Some 0%nat else option_map S (findIndex p l')
  end.

Fixpoint uint_chars (d : Decimal.uint) : list ascii :=
  match d with
  | Nil => []
  | D0 d => "0"%char :: uint_chars d
  | D1 d => "1"%char :: uint_chars d
  | D2 d => "2"%char :: uint_chars d
  | D3 d => "3"%char :: uint_chars d
  | D4 d => "4"%char :: uint_chars d
  | D5 d => "5"%char :: uint_chars d
  | D6 d => "6"%char :: uint_chars d
  | D7 d => "7"%char :: uint_chars d
  | D8 d => "8"%char :: uint_chars d
  | D9 d => "9"%char :: uint_chars d
  end.

(** The decimal digits of a non-negative integer, as [String(n)] and
    template literals print it. *)
Definition digits (n : N) : list ascii := uint_chars (N.to_uint n).

Definition of_N (n : N) : string := string_of_list_ascii (digits n).

End JsString.

(** ** JSON values, [JSON.stringify] and [JSON.parse]

    Numbers are the non-negative integers (time stamps and counters are
    the only numbers the program stores); a text with another number
    form, or with a [\u] escape of a code unit above 255, is outside the
    model and [parse] rejects it. *)

Module JSON.
Import Chars.

Local Unset Elimination Schemes.

Inductive json : Type :=
| JNull
| JBool (b : bool)
| JNum (n : N)
| JStr (s : string)
| JArr (items : list json)
| JObj (members : list (string * json)).

Local Set Elimination Schemes.

Definition chars (s : string) : list ascii := list_ascii_of_string s.

(** QuoteJSONString of ECMA-262 on code units below 256. *)
Definition escape_char (c : ascii) : list ascii :=
  let n := code c in
  if (n =? 34)%N then [backslash; quote]
  else if (n =? 92)%N then [backslash; backslash]
  else if (n =? 8)%N then [backslash; "b"%char]
  else if (n =? 9)%N then [backslash; "t"%char]
  else if (n =? 10)%N then [backslash; "n"%char]
  else if (n =? 12)%N then [backslash; "f"%char]
  else if (n =? 13)%N then [backslash; "r"%char]
  else if (n <? 32)%N then
    [backslash; "u"%char; "0"%char; "0"%char;
     hex_digit (n / 16); hex_digit (n mod 16)]
  else [c].

Definition escape (l : list ascii) : list ascii := flat_map escape_char l.

Definition quote_string (s : string) : list ascii :=
  quote :: escape (chars s) ++ [quote].

Fixpoint join (parts : list (list ascii)) : list ascii :=
  match parts with
  | [] => []
  | p :: ps =>
      match ps with
      | [] => p
      | _ :: _ => p ++ ","%char :: join ps
      end
  end.

Fixpoint print (v : json) : list ascii :=
  match v with
  | JNull => chars "null"
  | JBool true => chars "true"
  | JBool false => chars "false"
  | JNum n => JsString.digits n
  | JStr s => quote_string s
  | JArr items => "["%char :: join (map print items) ++ ["]"%char]
  | JObj members =>
      "{"%char ::
      join (map (fun kv => let '(k, x) := kv in
                           quote_string k ++ ":"%char :: print x) members)
      ++ ["}"%char]
  end.

(** [JSON.stringify(v)] without indentation. *)
Definition stringify (v : json) : string := string_of_list_ascii (print v).

Global Arguments stringify : simpl never.

Definition skip_ws (s : list ascii) : list ascii :=
  JsString.dropWhile is_json_ws s.

Definition hex2 (h1 h2 h3 h4 : ascii) : option ascii :=
  match hex_value h1, hex_value h2, hex_value h3, hex_value h4 with
  | Some 0%N, Some 0%N, Some a, Some b => Some (ascii_of_N (16 * a + b))
  | _, _, _, _ => None
  end.

Definition unescape (c : ascii) : option ascii :=
  let n := code c in
  if (n =? 34)%N then Some quote
  else if (n =? 92)%N then Some backslash
  else if (n =? 47)%N then Some "/"%char
  else if (n =? 98)%N then Some "008"%char
  else if (n =? 116)%N then Some "009"%char
  else if (n =? 110)%N then Some "010"%char
  else if (n =? 102)%N then Some "012"%char
  else if (n =? 114)%N then Some "013"%char
  else None.

Definition push (c : ascii) (r : option (list ascii * list ascii))
  : option (list ascii * list ascii) :=
  match r with
  | Some (str, rest) => Some (c :: str, rest)
  | None => None
  end.

(** The characters of a string literal, after its opening quote, and
    the input after its closing quote. *)
Fixpoint parse_chars (s : list ascii) : option (list ascii * list ascii) :=
  match s with
  | [] => None
  | c :: r =>
      if (code c =? 34)%N then Some ([], r)
      else if (code c =? 92)%N then
        match r with
        | [] => None
        | e :: r1 =>
            if (code e =? 117)%N then
              match r1 with
              | h1 :: h2 :: h3 :: h4 :: r2 =>
                  match hex2 h1 h2 h3 h4 with
                  | Some u => push u (parse_chars r2)
                  | None => None
                  end
              | _ => None
              end
            else
              match unescape e with
              | Some u => push u (parse_chars r1)
              | None => None
              end
        end
      else if (code c <? 32)%N then None
      else push c (parse_chars r)
  end.

Definition digit_cons (c : ascii) (d : Decimal.uint) : Decimal.uint :=
  match (code c - 48)%N with
  | 0 => D0 d | 1 => D1 d | 2 => D2 d | 3 => D3 d | 4 => D4 d
  | 5 => D5 d | 6 => D6 d | 7 => D7 d | 8 => D8 d | _ => D9 d
  end%N.

Fixpoint parse_uint (s : list ascii) : Decimal.uint * list ascii :=
  match s with
  | [] => (Nil, [])
  | c :: r =>
      if is_digit c
      then let '(d, r') := parse_uint r in (digit_cons c d, r')
      else (Nil, s)
  end.

(** A number token: digits without a superfluous leading zero. *)
Definition parse_number (s : list ascii) : option (json * list ascii) :=
  match parse_uint s with
  | (Nil, _) => None
  | (D0 Nil, r) => Some (JNum 0, r)
  | (D0 _, _) => None
  | (d, r) => Some (JNum (N.of_uint d), r)
  end.

Fixpoint expect (word : list ascii) (s : list ascii) : option (list ascii) :=
  match word with
  | [] => Some s
  | w :: word' =>
      match s with
      | c :: r => if Ascii.eqb c w then expect word' r else None
      | [] => None
      end
  end.

Definition parse_key (s : list ascii) : option (string * list ascii) :=
  match skip_ws s with
  | c :: r =>
      if (code c =? 34)%N then
        match parse_chars r with
        | Some (k, r1) =>
            match skip_ws r1 with
            | c1 :: r2 =>
                if (code c1 =? 58)%N
                then Some (string_of_list_ascii k, r2) else None
            | [] => None
            end
        | None => None
        end
      else None
  | [] => None
  end.

Fixpoint parse_value (fuel : nat) (s : list ascii) {struct fuel}
  : option (json * list ascii) :=
  match fuel with
  | O => None
  | S fuel' =>
      match skip_ws s with
      | [] => None
      | c :: r =>
          let n := code c in
          if (n =? 110)%N then
            match expect (chars "ull") r with
            | Some r' => Some (JNull, r') | None => None end
          else if (n =? 116)%N then
            match expect (chars "rue") r with
            | Some r' => Some (JBool true, r') | None => None end
          else if (n =? 102)%N then
            match expect (chars "alse") r with
            | Some r' => Some (JBool false, r') | None => None end
          else if (n =? 34)%N then
            match parse_chars r with
            | Some (str, r') => Some (JStr (string_of_list_ascii str), r')
            | None => None
            end
          else if (n =? 91)%N then
            match skip_ws r with
            | c1 :: r1 =>
                if (code c1 =? 93)%N then Some (JArr [], r1)
                else
                  match parse_value fuel' r with
                  | Some (x, r2) =>
                      match parse_items fuel' r2 with
                      | Some (xs, r3) => Some (JArr (x :: xs), r3)
                      | None => None
                      end
                  | None => None
                  end
            | [] => None
            end
          else if (n =? 123)%N then
            match skip_ws r with
            | c1 :: r1 =>
                if (code c1 =? 125)%N then Some (JObj [], r1)
                else
                  match parse_key r with
                  | Some (k, r2) =>
                      match parse_value fuel' r2 with
                      | Some (x, r3) =>
                          match parse_members fuel' r3 with
                          | Some (ms, r4) => Some (JObj ((k, x) :: ms), r4)
                          | None => None
                          end
                      | None => None
                      end
                  | None => None
                  end
            | [] => None
            end
          else if is_digit c then parse_number (c :: r)
          else None
      end
  end
with parse_items (fuel : nat) (s : list ascii) {struct fuel}
  : option (list json * list ascii) :=
  match fuel with
  | O => None
  | S fuel' =>
      match skip_ws s with
      | [] => None
      | c :: r =>
          if (code c =? 93)%N then Some ([], r)
          else if (code c =? 44)%N then
            match parse_value fuel' r with
            | Some (x, r1) =>
                match parse_items fuel' r1 with
                | Some (xs, r2) => Some (x :: xs, r2)
                | None => None
                end
            | None => None
            end
          else None
      end
  end
with parse_members (fuel : nat) (s : list ascii) {struct fuel}
  : option (list (string * json) * list ascii) :=
  match fuel with
  | O => None
  | S fuel' =>
      match skip_ws s with
      | [] => None
      | c :: r =>
          if (code c =? 125)%N then Some ([], r)
          else if (code c =? 44)%N then
            match parse_key r with
            | Some (k, r1) =>
                match parse_value fuel' r1 with
                | Some (x, r2) =>
                    match parse_members fuel' r2 with
                    | Some (ms, r3) => Some ((k, x) :: ms, r3)
                    | None => None
                    end
                | None => None
                end
            | None => None
            end
          else None
      end
  end.

(** [JSON.parse(text)]: [None] stands for the thrown [SyntaxError].
    The numbers read are the natural numbers, which are the numbers
    that the program writes (time stamps and retry counts); a text with
    a sign, a fraction or an exponent is valid JSON that this function
    does not read, so nothing below is concluded from [None] but on
    texts that are no JSON for another reason. *)
Definition parse (text : string) : option json :=
  let s := chars text in
  match parse_value (S (length s)) s with
  | Some (v, rest) =>
      match skip_ws rest with
      | [] => Some v
      | _ :: _ => None
      end
  | None => None
  end.

Global Arguments parse : simpl never.

(** Property access [o.k] on a parsed object: the last member named
    [k], as [JSON.parse] keeps the last of duplicate names. *)
Fixpoint field (k : string) (members : list (string * json)) : option json :=
  match members with
  | [] => None
  | (k', x) :: ms =>
      match field k ms with
      | Some y => Some y
      | None => if String.eqb k' k then Some x else None
      end
  end.

(** Induction on JSON values, through the lists of an array and of an
    object. *)
Section json_induction.
Variable P : json -> Prop.
Hypothesis Hnull : P JNull.
Hypothesis Hbool : forall b, P (JBool b).
Hypothesis Hnum : forall n, P (JNum n).
Hypothesis Hstr : forall s, P (JStr s).
Hypothesis Harr : forall items, Forall P items -> P (JArr items).
Hypothesis Hobj :
  forall members, Forall (fun kv => P (snd kv)) members -> P (JObj members).

Fixpoint json_nested_ind (v : json) : P v :=
  match v with
  | JNull => Hnull
  | JBool b => Hbool b
  | JNum n => Hnum n
  | JStr s => Hstr s
  | JArr items =>
      Harr items
        ((fix go (l : list json) : Forall P l :=
            match l with
            | [] => List.Forall_nil P
            | x :: l' => List.Forall_cons P x l' (json_nested_ind x) (go l')
            end) items)
  | JObj members =>
      Hobj members
        ((fix go (l : list (string * json))
           : Forall (fun kv => P (snd kv)) l :=
            match l with
            | [] => List.Forall_nil _
            | kv :: l' =>
                List.Forall_cons _ kv l' (json_nested_ind (snd kv)) (go l')
            end) members)
  end.
End json_induction.

(** Measures and shapes used in the proofs about [parse]. *)
Fixpoint size (v : json) : nat :=
  match v with
  | JArr items => S (length items + list_sum (map size items))
  | JObj members =>
      S (length members
         + list_sum (map (fun kv => let '(_, x) := kv in size x) members))
  | _ => 1
  end.

Definition no_digit_head (s : list ascii) : Prop :=
  match s with [] => True | c :: _ => is_digit c = false end.

Definition token_start (c : ascii) : bool :=
  is_digit c
  || (code c =? 110)%N || (code c =? 116)%N || (code c =? 102)%N
  || (code c =? 34)%N || (code c =? 91)%N || (code c =? 123)%N.

(** [parse_value] reads [v] back from its text, whatever follows it. *)
Definition parses (v : json) : Prop :=
  forall fuel rest,
    size v <= fuel -> no_digit_head rest ->
    parse_value fuel (print v ++ rest) = Some (v, rest).

Definition join_tail (parts : list (list ascii)) : list ascii :=
  flat_map (fun p => ","%char :: p) parts.

Definition member_text (kv : string * json) : list ascii :=
  let '(k, x) := kv in quote_string k ++ ":"%char :: print x.

End JSON.

(** ** Data model: notes, sessions and pending operations *)

Module Model.
Import JSON.

(** A note, as the backend builds it in [POST /api/notes]. *)
Record Note := mkNote {
  note_id : string;
  note_userId : string;
  note_date : string;
  note_content : string;
  note_createdAt : string;
  note_updatedAt : string
}.

(** The body [{ date, content }] of a save request. *)
Record NoteData := mkNoteData {
  data_date : string;
  data_content : string
}.

(** The argument of [syncQueue.add]. *)
Record OperationInput := mkOperationInput {
  in_method : string;
  in_url : string;
  in_headers : list (string * string);
  in_body : option NoteData
}.

(** An entry of the sync queue: the operation with [timestamp] and
    [retries]. *)
Record Operation := mkOperation {
  op_method : string;
  op_url : string;
  op_headers : list (string * string);
  op_body : option NoteData;
  op_timestamp : N;
  op_retries : N
}.

Record User := mkUser {
  user_id : string;
  user_username : string
}.

Record Session := mkSession {
  session_token : string;
  session_user : User
}.

(** *** Records as JSON values *)

Definition str_field (k : string) (m : list (string * json)) : option string :=
  match field k m with
  | Some (JStr s) => Some s
  | _ => None
  end.

Definition num_field (k : string) (m : list (string * json)) : option N :=
  match field k m with
  | Some (JNum n) => Some n
  | _ => None
  end.

Definition note_to_json (n : Note) : json :=
  JObj [("id", JStr (note_id n));
        ("userId", JStr (note_userId n));
        ("date", JStr (note_date n));
        ("content", JStr (note_content n));
        ("createdAt", JStr (note_createdAt n));
        ("updatedAt", JStr (note_updatedAt n))].

Definition note_of_json (j : json) : option Note :=
  match j with
  | JObj m =>
      match str_field "id" m, str_field "userId" m, str_field "date" m,
            str_field "content" m, str_field "createdAt" m,
            str_field "updatedAt" m with
      | Some i, Some u, Some d, Some c, Some ca, Some ua =>
          Some (mkNote i u d c ca ua)
      | _, _, _, _, _, _ => None
      end
  | _ => None
  end.

Fixpoint decode_list {A} (f : json -> option A) (items : list json)
  : option (list A) :=
  match items with
  | [] => Some []
  | x :: xs =>
      match f x, decode_list f xs with
      | Some a, Some l => Some (a :: l)
      | _, _ => None
      end
  end.

Definition notes_to_json (ns : list Note) : json :=
  JArr (map note_to_json ns).

Definition notes_of_json (j : json) : option (list Note) :=
  match j with
  | JArr items => decode_list note_of_json items
  | _ => None
  end.

Definition data_to_json (d : NoteData) : json :=
  JObj [("date", JStr (data_date d)); ("content", JStr (data_content d))].

Definition data_of_json (j : json) : option NoteData :=
  match j with
  | JObj m =>
      match str_field "date" m, str_field "content" m with
      | Some d, Some c => Some (mkNoteData d c)
      | _, _ => None
      end
  | _ => None
  end.

Definition body_to_json (b : option NoteData) : json :=
  match b with
  | Some d => data_to_json d
  | None => JNull
  end.

Definition body_of_json (j : json) : option (option NoteData) :=
  match j with
  | JNull => Some None
  | _ => match data_of_json j with
         | Some d => Some (Some d)
         | None => None
         end
  end.

Definition headers_to_json (hs : list (string * string)) : json :=
  JObj (map (fun kv => (fst kv, JStr (snd kv))) hs).

Fixpoint headers_of_members (m : list (string * json))
  : option (list (string * string)) :=
  match m with
  | [] => Some []
  | (k, JStr v) :: m' =>
      match headers_of_members m' with
      | Some hs => Some ((k, v) :: hs)
      | None => None
      end
  | _ :: _ => None
  end.

Definition headers_of_json (j : json) : option (list (string * string)) :=
  match j with
  | JObj m => headers_of_members m
  | _ => None
  end.

Definition operation_to_json (o : Operation) : json :=
  JObj [("method", JStr (op_method o));
        ("url", JStr (op_url o));
        ("headers", headers_to_json (op_headers o));
        ("body", body_to_json (op_body o));
        ("timestamp", JNum (op_timestamp o));
        ("retries", JNum (op_retries o))].

Definition operation_of_json (j : json) : option Operation :=
  match j with
  | JObj m =>
      match str_field "method" m, str_field "url" m,
            field "headers" m, field "body" m,
            num_field "timestamp" m, num_field "retries" m with
      | Some me, Some u, Some hj, Some bj, Some t, Some r =>
          match headers_of_json hj, body_of_json bj with
          | Some hs, Some b => Some (mkOperation me u hs b t r)
          | _, _ => None
          end
      | _, _, _, _, _, _ => None
      end
  | _ => None
  end.

Definition queue_to_json (q : list Operation) : json :=
  JArr (map operation_to_json q).

Definition queue_of_json (j : json) : option (list Operation) :=
  match j with
  | JArr items => decode_list operation_of_json items
  | _ => None
  end.

Definition session_to_json (s : Session) : json :=
  JObj [("token", JStr (session_token s));
        ("user", JObj [("id", JStr (user_id (session_user s)));
                       ("username", JStr (user_username (session_user s)))])].

Definition session_of_json (j : json) : option Session :=
  match j with
  | JObj m =>
      match str_field "token" m, field "user" m with
      | Some t, Some (JObj um) =>
          match str_field "id" um, str_field "username" um with
          | Some i, Some n => Some (mkSession t (mkUser i n))
          | _, _ => None
          end
      | _, _ => None
      end
  | _ => None
  end.

(** [JSON.parse] followed by the reading of the value as a record; a
    text that does not parse, or that is not the JSON of such a record,
    is a failure ([None]). *)
Definition parse_as {A} (decode : json -> option A) (text : string)
  : option A :=
  match parse text with
  | Some j => decode j
  | None => None
  end.

End Model.

(** ** The browser's [localStorage] *)

Module LocalStorage.

Abbreviation storage := (gmap string string).

Definition getItem (k : string) (ls : storage) : option string := ls !! k.

(** The storage quota is not modelled: [setItem] does not throw. *)
Definition setItem (k v : string) (ls : storage) : storage := <[k := v]> ls.

Definition removeItem (k : string) (ls : storage) : storage := delete k ls.

End LocalStorage.

(** ** The network *)

Module Net.

(** The arguments of [fetch]; [req_signal] tells whether an abort
    signal is attached. *)
Record Request := mkRequest {
  req_url : string;
  req_method : string;
  req_headers : list (string * string);
  req_body : option string;
  req_signal : bool
}.

(** A response: its status and the text of its body; [None] when the
    reading of the body is interrupted by the abort of the request. *)
Record Response := mkResponse {
  resp_status : N;
  resp_body : option string
}.

(** [response.ok]: the status is in the range 200-299. *)
Definition ok (r : Response) : bool :=
  (200 <=? resp_status r)%N && (resp_status r <=? 299)%N.

(** What [await fetch(...)] gives: a rejection with a network error
    ([TypeError]), a rejection with [AbortError], or a response. *)
Inductive FetchResult :=
| NetworkError
| Aborted
| Responded (r : Response).

Definition result_ok (r : FetchResult) : bool :=
  match r with
  | Responded resp => ok resp
  | _ => false
  end.

End Net.

(** ** [offlineStorage.js] *)

Module OfflineStorage.
Import JSON Model LocalStorage Net.

Definition STORAGE_PREFIX : string := "wellwork_".

Definition getUserKey (userId key : string) : string :=
  STORAGE_PREFIX +:+ key +:+ "_" +:+ userId.

(** [data ? JSON.parse(data) : fallback], inside [try]: the fallback
    also stands for the [catch] branch. *)
Definition parse_or {A} (decode : json -> option A) (fallback : A)
  (data : option string) : A :=
  match data with
  | Some text =>
      if JsString.truthy text then
        match parse_as decode text with
        | Some v => v
        | None => fallback
        end
      else fallback
  | None => fallback
  end.

(** The three stores, on a storage that accepts every write: [setItem]
    does not throw, so [save], [add] and [remove] take their
    [return true].  Their [catch] branch, taken when the browser
    refuses the write, is in [Quota] below. *)

Module notesStorage.

Definition save (userId : string) (notes : list Note) (ls : storage)
  : bool * storage :=
  let key := getUserKey userId "notes" in
  (true, setItem key (stringify (notes_to_json notes)) ls).

Definition load (userId : string) (ls : storage) : list Note :=
  let key := getUserKey userId "notes" in
  let data := getItem key ls in
  parse_or notes_of_json [] data.

Definition clear (userId : string) (ls : storage) : storage :=
  let key := getUserKey userId "notes" in
  removeItem key ls.

End notesStorage.

Module sessionStorage.

Definition key : string := STORAGE_PREFIX +:+ "session".

Definition save (session : Session) (ls : storage) : bool * storage :=
  (true, setItem key (stringify (session_to_json session)) ls).

Definition load (ls : storage) : option Session :=
  let data := getItem key ls in
  parse_or (fun j => Some (session_of_json j)) None data.

Definition clear (ls : storage) : storage := removeItem key ls.

End sessionStorage.

Module syncQueue.

Definition key : string := STORAGE_PREFIX +:+ "sync_queue".

Definition getAll (ls : storage) : list Operation :=
  let data := getItem key ls in
  parse_or queue_of_json [] data.

(** [now] is the value of [Date.now()]. *)
Definition add (operation : OperationInput) (now : N) (ls : storage)
  : bool * storage :=
  let queue := getAll ls in
  let queue :=
    queue ++ [mkOperation (in_method operation) (in_url operation)
                (in_headers operation) (in_body operation) now 0] in
  (true, setItem key (stringify (queue_to_json queue)) ls).

(** [queue.splice(index, 1)] is the deletion at [index], which does
    nothing when [index] is out of range. *)
Definition remove (index : nat) (ls : storage) : bool * storage :=
  let queue := getAll ls in
  let queue := delete index queue in
  (true, setItem key (stringify (queue_to_json queue)) ls).

Definition clear (ls : storage) : storage := removeItem key ls.

End syncQueue.

(** One replay of a queued operation, as the pass records it. *)
Record Replay := mkReplay {
  replay_index : nat;
  replay_operation : Operation;
  replay_request : Request;
  replay_result : FetchResult
}.

Definition bump (operation : Operation) : Operation :=
  mkOperation (op_method operation) (op_url operation)
    (op_headers operation) (op_body operation) (op_timestamp operation)
    (op_retries operation + 1).

Definition operation_request (apiBaseUrl token : string)
  (operation : Operation) : Request :=
  mkRequest (apiBaseUrl +:+ op_url operation) (op_method operation)
    ([("Content-Type", "application/json");
      ("Authorization", "Bearer " +:+ token)] ++ op_headers operation)
    (match op_body operation with
     | Some b => Some (stringify (data_to_json b))
     | None => None
     end)
    false.

Section retry.
Context {World : Type}.
Variable fetch : Request -> World -> FetchResult * World.

(** The state of a pass: the network, the storage, the array [queue]
    read at the start of the pass and mutated in memory, and the
    replays done so far.  A pass is run alone: between its awaits
    nothing else writes the storage.  [Overlap] below cuts the pass at
    its awaits and lets a second pass run in between. *)
Record Pass := mkPass {
  pass_world : World;
  pass_storage : storage;
  pass_queue : list Operation;
  pass_log : list Replay
}.

(** [operation.retries++] on the element of the array in memory, then
    the removal from the stored queue when [operation.retries > 5]. *)
Definition still_failing (i : nat) (operation : Operation)
  (queue : list Operation) (ls : storage) : list Operation * storage :=
  let operation' := bump operation in
  let queue' := <[i := operation']> queue in
  if (5 <? op_retries operation')%N
  then (queue', snd (syncQueue.remove i ls))
  else (queue', ls).

(** The body of the [for] loop at index [i], which is below the length
    of the array throughout the loop. *)
Definition replay (apiBaseUrl token : string) (i : nat) (st : Pass) : Pass :=
  match pass_queue st !! i with
  | None => st
  | Some operation =>
      let request := operation_request apiBaseUrl token operation in
      let '(result, w) := fetch request (pass_world st) in
      let log := pass_log st ++ [mkReplay i operation request result] in
      match result with
      | Responded response =>
          if ok response then
            mkPass w (snd (syncQueue.remove i (pass_storage st)))
              (pass_queue st) log
          else
            let '(queue', ls') :=
              still_failing i operation (pass_queue st) (pass_storage st) in
            mkPass w ls' queue' log
      | NetworkError | Aborted =>
          let '(queue', ls') :=
            still_failing i operation (pass_queue st) (pass_storage st) in
          mkPass w ls' queue' log
      end
  end.

(** [for (let i = n - 1; i >= 0; i--)] *)
Fixpoint replay_from (apiBaseUrl token : string) (n : nat) (st : Pass)
  : Pass :=
  match n with
  | O => st
  | S i => replay_from apiBaseUrl token i (replay apiBaseUrl token i st)
  end.

Definition retryFailedRequests (apiBaseUrl token : string)
  (w : World) (ls : storage) : Pass :=
  let queue := syncQueue.getAll ls in
  if (length queue =? 0)%nat then mkPass w ls queue []
  else
    let st := replay_from apiBaseUrl token (length queue)
                (mkPass w ls queue []) in
    let updatedQueue := syncQueue.getAll (pass_storage st) in
    mkPass (pass_world st)
      (setItem syncQueue.key (stringify (queue_to_json updatedQueue))
         (pass_storage st))
      (pass_queue st) (pass_log st).

End retry.

(** An entry of the log of a pass: the request is the one built from
    the operation, and the result is an answer of [fetch] to it. *)
Definition replayed_by {World : Type}
  (fetch : Request -> World -> FetchResult * World)
  (apiBaseUrl token : string) (e : Replay) : Prop :=
  replay_request e
  = operation_request apiBaseUrl token (replay_operation e)
  /\ exists w, replay_result e = fst (fetch (replay_request e) w).

(** The two conditions under which the loop calls [syncQueue.remove]:
    the replay got an [ok] response, or the incremented retry count of
    the operation is above 5. *)
Definition exhausted (operation : Operation) : bool :=
  (5 <? op_retries (bump operation))%N.

Definition removed (e : Replay) : bool :=
  result_ok (replay_result e) || exhausted (replay_operation e).

Definition kept (e : Replay) : bool := negb (removed e).


(** The stored queue after [n] passes, each run to its end before the
    next one starts. *)
Fixpoint passes {World : Type}
  (fetch : Request -> World -> FetchResult * World)
  (apiBaseUrl token : string) (n : nat) (w : World) (ls : storage)
  : World * storage :=
  match n with
  | O => (w, ls)
  | S n' =>
      let pass := retryFailedRequests fetch apiBaseUrl token w ls in
      passes fetch apiBaseUrl token n' (pass_world pass) (pass_storage pass)
  end.

End OfflineStorage.

(** ** The [Notes] component: [handleSave] and [handleDelete] *)

Module Notes.
Import JSON Model LocalStorage Net OfflineStorage.

Record Props := mkProps {
  selectedDate : option string;
  apiBaseUrl : string;
  token : string;
  userId : string;
  isOfflineMode : bool
}.

Record State := mkState {
  content : string;
  currentNoteId : option string;
  isLoading : bool;
  isSaving : bool;
  isDeleting : bool
}.

(** [await response.json()] read as an array of notes; [None] when it
    throws. *)
Definition response_notes (response : Response) : option (list Note) :=
  match resp_body response with
  | Some text => parse_as notes_of_json text
  | None => None
  end.

(** The values of [Date.now()] and [new Date().toISOString()] read by
    [handleSave], in the order of the calls, and the one read by
    [syncQueue.add]. *)
Record Clock := mkClock {
  clock_id : N;
  clock_createdAt : string;
  clock_updatedAt : string;
  clock_queue : N
}.

Section handlers.
Context {World Parent : Type}.
Variable fetch : Request -> World -> FetchResult * World.
(** The [onNoteSaved] prop, when given: it acts on the state of the
    parent component and on the storage. *)
Variable onNoteSaved :
  option (list Note -> Parent -> storage -> Parent * storage).

Record Page := mkPage {
  page_state : State;
  page_parent : Parent;
  page_storage : storage;
  page_world : World
}.

Definition notify (notes : list Note) (parent : Parent) (ls : storage)
  : Parent * storage :=
  match onNoteSaved with
  | Some callback => callback notes parent ls
  | None => (parent, ls)
  end.

Definition save_request (props : Props) (noteData : NoteData) : Request :=
  mkRequest (apiBaseUrl props +:+ "/api/notes") "POST"
    [("Content-Type", "application/json");
     ("Authorization", "Bearer " +:+ token props)]
    (Some (stringify (data_to_json noteData)))
    false.

(** The second [try] block of [handleSave]: the note is written to
    the cache and the request is queued. *)
Definition save_locally (props : Props) (clock : Clock)
  (selected : string) (noteData : NoteData) (st : State)
  (parent : Parent) (ls : storage) (w : World) : Page :=
  let cachedNotes := notesStorage.load (userId props) ls in
  let existingIndex :=
    JsString.findIndex (fun note => String.eqb (note_date note) selected)
      cachedNotes in
  let noteToSave :=
    mkNote
      (if JsString.present (currentNoteId st)
       then default "" (currentNoteId st)
       else "temp_" +:+ JsString.of_N (clock_id clock))
      (userId props)
      selected
      (JsString.trim (content st))
      (match existingIndex with
       | Some i =>
           match cachedNotes !! i with
           | Some existing => note_createdAt existing
           | None => clock_createdAt clock
           end
       | None => clock_createdAt clock
       end)
      (clock_updatedAt clock) in
  let cachedNotes :=
    match existingIndex with
    | Some i => <[i := noteToSave]> cachedNotes
    | None => cachedNotes ++ [noteToSave]
    end in
  let ls1 := snd (notesStorage.save (userId props) cachedNotes ls) in
  let ls2 :=
    snd (syncQueue.add (mkOperationInput "POST" "/api/notes" []
                          (Some noteData))
           (clock_queue clock) ls1) in
  let '(parent', ls3) := notify cachedNotes parent ls2 in
  mkPage
    (mkState (content st) (Some (note_id noteToSave)) (isLoading st)
       false (isDeleting st))
    parent' ls3 w.

Definition handleSave (props : Props) (clock : Clock) (pg : Page) : Page :=
  let st := page_state pg in
  match selectedDate props with
  | None => pg
  | Some selected =>
      if negb (JsString.truthy selected) then pg
      else
        let noteData := mkNoteData selected (JsString.trim (content st)) in
        let locally :=
          save_locally props clock selected noteData st
            (page_parent pg) (page_storage pg) in
        if negb (isOfflineMode props) then
          let '(result, w) :=
            fetch (save_request props noteData) (page_world pg) in
          match result with
          | Responded response =>
              if ok response then
                match response_notes response with
                | Some updatedNotes =>
                    let savedNote :=
                      List.find
                        (fun note => String.eqb (note_date note) selected)
                        updatedNotes in
                    let current :=
                      match savedNote with
                      | Some note => Some (note_id note)
                      | None => currentNoteId st
                      end in
                    let '(parent', ls') :=
                      notify updatedNotes (page_parent pg)
                        (page_storage pg) in
                    mkPage
                      (mkState (content st) current (isLoading st) false
                         (isDeleting st))
                      parent' ls' w
                | None => locally w
                end
              else locally w
          | NetworkError | Aborted => locally w
          end
        else locally (page_world pg)
  end.

Definition delete_request (props : Props) (noteId : string) : Request :=
  mkRequest (apiBaseUrl props +:+ "/api/notes/" +:+ noteId) "DELETE"
    [("Authorization", "Bearer " +:+ token props)]
    None
    false.

(** The second [try] block of [handleDelete]; [now] is the value of
    [Date.now()] read by [syncQueue.add]. *)
Definition delete_locally (props : Props) (now : N) (noteId : string)
  (st : State) (parent : Parent) (ls : storage) (w : World) : Page :=
  let cachedNotes := notesStorage.load (userId props) ls in
  let filteredNotes :=
    List.filter (fun note => negb (String.eqb (note_id note) noteId))
      cachedNotes in
  let ls1 := snd (notesStorage.save (userId props) filteredNotes ls) in
  let ls2 :=
    if negb (JsString.startsWith noteId "temp_") then
      snd (syncQueue.add
             (mkOperationInput "DELETE" ("/api/notes/" +:+ noteId) [] None)
             now ls1)
    else ls1 in
  let '(parent', ls3) := notify filteredNotes parent ls2 in
  mkPage (mkState "" None (isLoading st) (isSaving st) false)
    parent' ls3 w.

(** [confirmed] is the answer of the user to [confirm(...)]. *)
Definition handleDelete (props : Props) (confirmed : bool) (now : N)
  (pg : Page) : Page :=
  let st := page_state pg in
  if negb (JsString.present (selectedDate props))
     || negb (JsString.present (currentNoteId st))
  then pg
  else if negb confirmed then pg
  else
    let noteId := default "" (currentNoteId st) in
    let locally :=
      delete_locally props now noteId st (page_parent pg)
        (page_storage pg) in
    if negb (isOfflineMode props)
       && negb (JsString.startsWith noteId "temp_") then
      let '(result, w) :=
        fetch (delete_request props noteId) (page_world pg) in
      match result with
      | Responded response =>
          if ok response then
            match response_notes response with
            | Some updatedNotes =>
                let '(parent', ls') :=
                  notify updatedNotes (page_parent pg) (page_storage pg) in
                mkPage (mkState "" None (isLoading st) (isSaving st) false)
                  parent' ls' w
            | None => locally w
            end
          else locally w
      | NetworkError | Aborted => locally w
      end
    else locally (page_world pg).

End handlers.

End Notes.

(** ** The [App] component: health check, [onNoteSaved] and log-out *)

Module App.
Import JSON Model LocalStorage Net OfflineStorage.

Inductive ServerStatus := checking | online | offline.

Inductive Stage := register | login.

Record State := mkState {
  stage : Stage;
  session : option Session;
  serverStatus : ServerStatus;
  notice : option string;
  selectedDate : option string;
  notes : list Note;
  isOfflineMode : bool
}.

Definition setServerStatus (v : ServerStatus) (st : State) : State :=
  mkState (stage st) (session st) v (notice st) (selectedDate st)
    (notes st) (isOfflineMode st).

Definition setIsOfflineMode (v : bool) (st : State) : State :=
  mkState (stage st) (session st) (serverStatus st) (notice st)
    (selectedDate st) (notes st) v.

Definition setNotes (v : list Note) (st : State) : State :=
  mkState (stage st) (session st) (serverStatus st) (notice st)
    (selectedDate st) v (isOfflineMode st).

Definition setSession (v : option Session) (st : State) : State :=
  mkState (stage st) v (serverStatus st) (notice st) (selectedDate st)
    (notes st) (isOfflineMode st).

Definition setSelectedDate (v : option string) (st : State) : State :=
  mkState (stage st) (session st) (serverStatus st) (notice st) v
    (notes st) (isOfflineMode st).

(** The [onNoteSaved] prop that [App] gives to [Notes]. *)
Definition onNoteSaved (current : Session) (updatedNotes : list Note)
  (st : State) (ls : storage) : State * storage :=
  (setNotes updatedNotes st,
   snd (notesStorage.save (user_id (session_user current)) updatedNotes ls)).

(** [session?.user?.id] inside a template literal. *)
Definition session_user_id (o : option Session) : string :=
  match o with
  | Some current => user_id (session_user current)
  | None => "undefined"
  end.

(** The [onClick] handler of the log-out button. *)
Definition logout (st : State) (ls : storage) : State * storage :=
  let ls1 := sessionStorage.clear ls in
  let ls2 := notesStorage.clear (session_user_id (session st)) ls1 in
  (setIsOfflineMode false
     (setNotes [] (setSelectedDate None (setSession None st))),
   ls2).

Definition health_request (apiBaseUrl : string) : Request :=
  mkRequest (apiBaseUrl +:+ "/health") "GET"
    [("Content-Type", "application/json")] None true.

Definition notes_request (apiBaseUrl token : string) : Request :=
  mkRequest (apiBaseUrl +:+ "/api/notes") "GET"
    [("Authorization", "Bearer " +:+ token)] None false.

(** [session?.token], when truthy. *)
Definition session_token_of (o : option Session) : option Session :=
  match o with
  | Some current =>
      if JsString.truthy (session_token current) then Some current else None
  | None => None
  end.

Section health.
Context {World : Type}.
Variable fetch : Request -> World -> FetchResult * World.

(** The component, the variable [wasOffline] of the effect, the
    storage and the network. *)
Record Live := mkLive {
  live_state : State;
  wasOffline : bool;
  live_storage : storage;
  live_world : World
}.

(** The [catch] branch for an error other than [AbortError]. *)
Definition failed (st : State) (ls : storage) (w : World) : Live :=
  mkLive (setIsOfflineMode true (setServerStatus offline st)) true ls w.

(** The reload of the notes after the retry of the queued requests. *)
Definition reload (apiBaseUrl : string) (current : Session)
  (st : State) (ls : storage) (w : World) : State * storage * World :=
  let '(result, w') :=
    fetch (notes_request apiBaseUrl (session_token current)) w in
  match result with
  | Responded response =>
      if ok response then
        match Notes.response_notes response with
        | Some serverNotes =>
            (setNotes serverNotes st,
             snd (notesStorage.save (user_id (session_user current))
                    serverNotes ls),
             w')
        | None => (st, ls, w')
        end
      else (st, ls, w')
  | NetworkError | Aborted => (st, ls, w')
  end.

Definition checkHealth (apiBaseUrl : string) (lv : Live) : Live :=
  let st := setServerStatus checking (live_state lv) in
  let ls := live_storage lv in
  let '(result, w) := fetch (health_request apiBaseUrl) (live_world lv) in
  match result with
  | Aborted => mkLive st (wasOffline lv) ls w
  | NetworkError => failed st ls w
  | Responded response =>
      if negb (ok response) then failed st ls w
      else
        match resp_body response with
        | None => mkLive st (wasOffline lv) ls w
        | Some text =>
            match parse text with
            | None => failed st ls w
            | Some _ =>
                let st1 := setIsOfflineMode false (setServerStatus online st) in
                match wasOffline lv, session_token_of (session st) with
                | true, Some current =>
                    let pass :=
                      retryFailedRequests fetch apiBaseUrl
                        (session_token current) w ls in
                    let '(st2, ls2, w2) :=
                      reload apiBaseUrl current st1 (pass_storage pass)
                        (pass_world pass) in
                    mkLive st2 false ls2 w2
                | _, _ => mkLive st1 false ls w
                end
            end
        end
  end.

End health.

End App.

(** ** The backend: the note endpoints

    The state of the backend is the array that [readNotes] reads from
    [notes.json] and that [writeNotes] writes back.  The authenticated
    user is given by [sub], the [sub] claim of the token that
    [authenticateToken] has verified.  The [date] and the [content] of
    a request are strings or absent, as the comments of the routes
    document them and as the client sends them; [Wire] below has the
    endpoints on any JSON values. *)

Module Server.
Import Model.

(** The answer of an endpoint: its status and, on success, the array of
    notes of the user. *)
Record Reply := mkReply {
  reply_status : N;
  reply_notes : option (list Note)
}.

(** The values of [randomUUID()] and of the two calls of
    [new Date().toISOString()] read by [POST /api/notes]; an update
    reads [fresh_updatedAt] only. *)
Record Fresh := mkFresh {
  fresh_uuid : string;
  fresh_createdAt : string;
  fresh_updatedAt : string
}.

Definition userNotes (sub : string) (notes : list Note) : list Note :=
  List.filter (fun note => String.eqb (note_userId note) sub) notes.

(** [note.content = content.trim(); note.updatedAt = now] *)
Definition rewrite_note (text now : string) (note : Note) : Note :=
  mkNote (note_id note) (note_userId note) (note_date note)
    (JsString.trim text) (note_createdAt note) now.

(** [!content || !content.trim()] *)
Definition blank (o : option string) : bool :=
  match o with
  | Some text =>
      negb (JsString.truthy text) || negb (JsString.truthy (JsString.trim text))
  | None => true
  end.

(** [app.post('/api/notes', ...)] *)
Definition post_notes (sub : string) (date content : option string)
  (fresh : Fresh) (notes : list Note) : Reply * list Note :=
  if negb (JsString.present date) || blank content then
    (mkReply 400 None, notes)
  else
    let date := default "" date in
    let content := default "" content in
    let existingNote :=
      JsString.findIndex
        (fun note => String.eqb (note_userId note) sub
                     && String.eqb (note_date note) date)
        notes in
    let notes' :=
      match existingNote with
      | Some i => alter (rewrite_note content (fresh_updatedAt fresh)) i notes
      | None =>
          notes ++ [mkNote (fresh_uuid fresh) sub date (JsString.trim content)
                      (fresh_createdAt fresh) (fresh_updatedAt fresh)]
      end in
    (mkReply 201 (Some (userNotes sub notes')), notes').

(** [app.put('/api/notes/:id', ...)] *)
Definition put_note (sub id : string) (content : option string)
  (now : string) (notes : list Note) : Reply * list Note :=
  if blank content then (mkReply 400 None, notes)
  else
    let content := default "" content in
    match JsString.findIndex
            (fun n => String.eqb (note_id n) id
                      && String.eqb (note_userId n) sub)
            notes with
    | None => (mkReply 404 None, notes)
    | Some i =>
        let notes' := alter (rewrite_note content now) i notes in
        (mkReply 200 (Some (userNotes sub notes')), notes')
    end.

(** [app.delete('/api/notes/:id', ...)] *)
Definition delete_note (sub id : string) (notes : list Note)
  : Reply * list Note :=
  let filteredNotes :=
    List.filter
      (fun note => negb (String.eqb (note_id note) id
                         && String.eqb (note_userId note) sub))
      notes in
  if (length notes =? length filteredNotes)%nat then
    (mkReply 404 None, notes)
  else (mkReply 200 (Some (userNotes sub filteredNotes)), filteredNotes).

(** A request to one of the note endpoints, with the values that the
    handler reads from its environment. *)
Inductive Call :=
| Post (sub : string) (date content : option string) (fresh : Fresh)
| Put (sub id : string) (content : option string) (now : string)
| Delete (sub id : string).

Definition handle (call : Call) (notes : list Note) : Reply * list Note :=
  match call with
  | Post sub date content fresh => post_notes sub date content fresh notes
  | Put sub id content now => put_note sub id content now notes
  | Delete sub id => delete_note sub id notes
  end.

(** The state after a sequence of requests, handled one after the
    other. *)
Definition run (calls : list Call) (notes : list Note) : list Note :=
  fold_left (fun state call => snd (handle call state)) calls notes.

End Server.

(** ** Concrete runs

    Networks, stores and component states on which the properties below
    are evaluated. *)

Module Scenario.
Import JSON Model LocalStorage Net OfflineStorage.

(** A network that is down: every [fetch] is rejected. *)
Definition down (request : Request) (w : unit) : FetchResult * unit :=
  (NetworkError, w).


(** A network on which the request is aborted. *)
Definition aborting (request : Request) (w : unit) : FetchResult * unit :=
  (Aborted, w).

Definition delete_input : OperationInput :=
  mkOperationInput "DELETE" "/api/notes/n1" [] None.

Definition save_input : OperationInput :=
  mkOperationInput "POST" "/api/notes" []
    (Some (mkNoteData "2024-06-01" "buy milk")).

(** The storage after one queued delete, and after a queued save
    followed by a queued delete. *)
Definition one_queued : storage :=
  snd (syncQueue.add delete_input 1000 ∅).

Definition two_queued : storage :=
  snd (syncQueue.add delete_input 2000
         (snd (syncQueue.add save_input 1000 ∅))).

Definition queued_delete : Operation :=
  mkOperation "DELETE" "/api/notes/n1" [] None 1000 0.

Definition queued_save : Operation :=
  mkOperation "POST" "/api/notes" []
    (Some (mkNoteData "2024-06-01" "buy milk")) 1000 0.

(** The replay of the queued save on the network that is down. *)
Definition failed_save_replay : Replay :=
  mkReplay 0 queued_save (operation_request "" "" queued_save) NetworkError.

Definition alice : Session := mkSession "token" (mkUser "u1" "alice").

(** [App] with a session, the backend known to be online. *)
Definition online_app : App.State :=
  App.mkState App.login (Some alice) App.online None (Some "2024-06-01")
    [] false.

(** The props that [App] gives to [Notes] in that state. *)
Definition props : Notes.Props :=
  Notes.mkProps (Some "2024-06-01") "http://localhost:5000" "token" "u1"
    false.

Definition clock : Notes.Clock :=
  Notes.mkClock 1717200000000 "2024-06-01T00:00:00.000Z"
    "2024-06-01T00:00:00.001Z" 1717200000002.


Definition temporary_note : Note :=
  mkNote "temp_1717200000000" "u1" "2024-06-01" "buy milk"
    "2024-06-01T00:00:00.000Z" "2024-06-01T00:00:00.001Z".

Definition confirmed_note : Note :=
  mkNote "n1" "u1" "2024-06-01" "call Bob"
    "2024-05-31T00:00:00.000Z" "2024-05-31T00:00:00.001Z".

Definition other_note : Note :=
  mkNote "n2" "u1" "2024-06-02" "pay rent"
    "2024-05-30T00:00:00.000Z" "2024-05-30T00:00:00.001Z".

(** The note of the selected day is a temporary one, cached. *)
Definition viewing_temporary
  : Notes.Page (World := unit) (Parent := App.State) :=
  Notes.mkPage
    (Notes.mkState "buy milk" (Some "temp_1717200000000") false false false)
    online_app
    (snd (notesStorage.save "u1" [temporary_note; other_note] ∅))
    tt.

(** The note of the selected day is one that the backend has stored. *)
Definition viewing_confirmed
  : Notes.Page (World := unit) (Parent := App.State) :=
  Notes.mkPage (Notes.mkState "call Bob" (Some "n1") false false false)
    online_app
    (snd (notesStorage.save "u1" [confirmed_note; other_note] ∅))
    tt.

(** Two handlings of the same save request by the backend, one
    millisecond apart. *)
Definition first_handling : Server.Fresh :=
  Server.mkFresh "uuid-1" "2024-06-01T10:00:00.000Z"
    "2024-06-01T10:00:00.000Z".

Definition second_handling : Server.Fresh :=
  Server.mkFresh "uuid-2" "2024-06-01T10:00:00.001Z"
    "2024-06-01T10:00:00.001Z".

Definition replayed_save (fresh : Server.Fresh) : Server.Call :=
  Server.Post "u1" (Some "2024-06-01") (Some "buy milk") fresh.

(** The storage of a logged-in user with one queued delete. *)
Definition logged_in_storage : storage :=
  snd (syncQueue.add delete_input 1000
         (snd (notesStorage.save "u1" [confirmed_note]
                 (snd (sessionStorage.save alice ∅))))).

End Scenario.

(** ** The [Notes] component: the loading of the note of a date *)

Module NotesView.
Import JSON Model LocalStorage Net OfflineStorage.

(** [fetch(`${apiBaseUrl}/api/notes`, { headers })] *)
Definition notes_request (props : Notes.Props) : Request :=
  mkRequest (Notes.apiBaseUrl props +:+ "/api/notes") "GET"
    [("Authorization", "Bearer " +:+ Notes.token props)] None false.

(** The note of [date] among [notes], shown in the text area: its
    content and id, or an empty content and no id; the loading is
    over. *)
Definition show (date : string) (notes : list Note) (st : Notes.State)
  : Notes.State :=
  match List.find (fun note => String.eqb (note_date note) date) notes with
  | Some noteForDate =>
      Notes.mkState (note_content noteForDate) (Some (note_id noteForDate))
        false (Notes.isSaving st) (Notes.isDeleting st)
  | None =>
      Notes.mkState "" None false (Notes.isSaving st) (Notes.isDeleting st)
  end.

Section view.
Context {World : Type}.
Variable fetch : Request -> World -> FetchResult * World.

Definition loadNoteForDate (props : Notes.Props) (date : string)
  (st : Notes.State) (ls : storage) (w : World) : Notes.State * World :=
  let from_cache (w0 : World) :=
    (show date (notesStorage.load (Notes.userId props) ls) st, w0) in
  if negb (Notes.isOfflineMode props) then
    let '(result, w') := fetch (notes_request props) w in
    match result with
    | Responded response =>
        if ok response then
          match Notes.response_notes response with
          | Some notes => (show date notes st, w')
          | None => from_cache w'
          end
        else from_cache w'
    | NetworkError | Aborted => from_cache w'
    end
  else from_cache w.

(** The effect on [selectedDate]. *)
Definition onDateChange (props : Notes.Props) (st : Notes.State)
  (ls : storage) (w : World) : Notes.State * World :=
  if JsString.present (Notes.selectedDate props) then
    loadNoteForDate props (default "" (Notes.selectedDate props)) st ls w
  else
    (Notes.mkState "" (Notes.currentNoteId st) (Notes.isLoading st)
       (Notes.isSaving st) (Notes.isDeleting st),
     w).

End view.

End NotesView.

(** ** The [App] component: the session and the loading of the notes *)

Module AppEffects.
Import JSON Model LocalStorage Net OfflineStorage.

(** A body that [response.json()] rejects whatever follows its first
    character: after the white space it is empty, or its first
    character starts no JSON value (as the [<] of an HTML page does
    not). *)
Definition starts_no_value (text : string) : bool :=
  match skip_ws (chars text) with
  | [] => true
  | c :: _ => negb (token_start c || (Chars.code c =? 45)%N)
  end.



(** [if (cachedNotes.length > 0) { setNotes(cachedNotes);
    setIsOfflineMode(true) }] *)
Definition show_cached (userId : string) (st : App.State) (ls : storage)
  : App.State :=
  let cachedNotes := notesStorage.load userId ls in
  if (0 <? length cachedNotes)%nat
  then App.setIsOfflineMode true (App.setNotes cachedNotes st)
  else st.

(** The effect run on mount: the session is restored from the
    storage. *)
Definition restoreSession (st : App.State) (ls : storage) : App.State :=
  match sessionStorage.load ls with
  | Some savedSession =>
      show_cached (user_id (session_user savedSession))
        (App.setSession (Some savedSession) st) ls
  | None => st
  end.

Section notes.
Context {World : Type}.
Variable fetch : Request -> World -> FetchResult * World.

(** [loadNotes], the effect on the session. *)
Definition loadNotes (apiBaseUrl : string) (st : App.State) (ls : storage)
  (w : World) : App.State * storage * World :=
  match App.session_token_of (App.session st) with
  | None => (App.setNotes [] st, ls, w)
  | Some current =>
      let userId := user_id (session_user current) in
      let '(result, w') :=
        fetch (App.notes_request apiBaseUrl (session_token current)) w in
      match result with
      | Responded response =>
          if ok response then
            match Notes.response_notes response with
            | Some userNotes =>
                (App.setIsOfflineMode false (App.setNotes userNotes st),
                 snd (notesStorage.save userId userNotes ls),
                 w')
            | None => (show_cached userId st ls, ls, w')
            end
          else (show_cached userId st ls, ls, w')
      | NetworkError | Aborted => (show_cached userId st ls, ls, w')
      end
  end.

End notes.

End AppEffects.

(** ** Further concrete runs *)

Module Runs.
Import JSON Model LocalStorage Net OfflineStorage.

(** A backend that accepts every request and answers with the notes of
    the user. *)
Definition accepting (request : Request) (w : unit) : FetchResult * unit :=
  (Responded
     (mkResponse 200
        (Some (stringify (notes_to_json [Scenario.confirmed_note])))),
   w).

Definition bob : Session := mkSession "token-b" (mkUser "u2" "bob").

(** A backend that accepts every request and answers with an empty
    array of notes. *)
Definition emptied (request : Request) (w : unit) : FetchResult * unit :=
  (Responded (mkResponse 200 (Some (stringify (notes_to_json [])))), w).

(** The props of [Notes] when [App] is in offline mode. *)
Definition offline_props : Notes.Props :=
  Notes.mkProps (Some "2024-06-01") "http://localhost:5000" "token" "u1"
    true.

End Runs.

(** ** The note endpoints: the caller and the identity of a note *)

Module ServerCalls.
Import Model.

(** [req.user.sub], the user that [authenticateToken] has put on the
    request. *)
Definition caller (call : Server.Call) : string :=
  match call with
  | Server.Post sub _ _ _ => sub
  | Server.Put sub _ _ _ => sub
  | Server.Delete sub _ => sub
  end.

(** The fields of a note that no endpoint assigns after the creation of
    the note. *)
Definition identity_of (note : Note) : string * string * string * string :=
  (note_id note, note_userId note, note_date note, note_createdAt note).

(** [app.get('/api/notes', ...)] *)
Definition get_notes (sub : string) (notes : list Note) : Server.Reply :=
  Server.mkReply 200 (Some (Server.userNotes sub notes)).

(** The note of [date] that the client looks for in a reply. *)
Definition note_of_date (date : string) (notes : list Note) : option Note :=
  List.find (fun note => String.eqb (note_date note) date) notes.

End ServerCalls.

(** ** [offlineStorage.js] on a storage that may refuse a write

    [localStorage.setItem] throws when the browser refuses the write
    (the quota is used up, or the storage of the site is disabled).
    The functions of [OfflineStorage] are those of a storage that
    accepts every write; here are [save], [add] and [remove] with their
    [catch] branch. *)

Module Quota.
Import JSON Model LocalStorage.

(** Which writes the browser accepts is an input: [accepts key value ls]
    tells whether [setItem(key, value)] returns on the storage [ls];
    otherwise it throws. *)
Definition Policy := string -> string -> storage -> bool.

(** [localStorage.setItem(key, value)]: [None] stands for the thrown
    exception, which leaves the storage as it is. *)
Definition setItem (accepts : Policy) (key value : string) (ls : storage)
  : option storage :=
  if accepts key value ls then Some (LocalStorage.setItem key value ls)
  else None.

(** [try { ...; localStorage.setItem(key, text); return true }
     catch (error) { return false }] *)
Definition attempt (accepts : Policy) (key text : string) (ls : storage)
  : bool * storage :=
  match setItem accepts key text ls with
  | Some ls' => (true, ls')
  | None => (false, ls)
  end.

Module notesStorage.

Definition save (accepts : Policy) (userId : string) (notes : list Note)
  (ls : storage) : bool * storage :=
  let key := OfflineStorage.getUserKey userId "notes" in
  attempt accepts key (stringify (notes_to_json notes)) ls.

End notesStorage.

Module sessionStorage.

Definition save (accepts : Policy) (session : Session) (ls : storage)
  : bool * storage :=
  attempt accepts OfflineStorage.sessionStorage.key
    (stringify (session_to_json session)) ls.

End sessionStorage.

Module syncQueue.

(** The stored text of the queue is one that [add] and [remove] read
    as they wrote it: there is none, or it is the text of the array of
    operations that [getAll] returns. *)
Definition well_stored (ls : storage) : Prop :=
  getItem OfflineStorage.syncQueue.key ls = None \/
  getItem OfflineStorage.syncQueue.key ls
  = Some (stringify (queue_to_json (OfflineStorage.syncQueue.getAll ls))).

(** [now] is the value of [Date.now()]. *)
Definition add (accepts : Policy) (operation : OperationInput) (now : N)
  (ls : storage) : bool * storage :=
  let queue := OfflineStorage.syncQueue.getAll ls in
  let queue :=
    queue ++ [mkOperation (in_method operation) (in_url operation)
                (in_headers operation) (in_body operation) now 0] in
  attempt accepts OfflineStorage.syncQueue.key
    (stringify (queue_to_json queue)) ls.

Definition remove (accepts : Policy) (index : nat) (ls : storage)
  : bool * storage :=
  let queue := OfflineStorage.syncQueue.getAll ls in
  let queue := delete index queue in
  attempt accepts OfflineStorage.syncQueue.key
    (stringify (queue_to_json queue)) ls.

End syncQueue.

(** A browser that accepts every write, and one that refuses every
    write (the storage of the site is disabled or full). *)
Definition unlimited : Policy := fun _ _ _ => true.

Definition refusing : Policy := fun _ _ _ => false.

End Quota.

(** ** Passes of [retryFailedRequests] that overlap

    [retryFailedRequests] gives the control back at each [await fetch].
    [App] calls it from [checkHealth], which [setInterval] starts every
    five seconds without waiting for the call before, and [wasOffline]
    is reset only after the awaited pass: while a pass waits for an
    answer, the next healthy check starts another pass on the same
    stored queue.  [OfflineStorage.retryFailedRequests] is a pass during
    which nothing else runs; here a pass is cut at its awaits. *)

Module Overlap.
Import JSON Model LocalStorage Net OfflineStorage.

(** A pass between two of its turns: not called yet; suspended at the
    [await fetch] of the operation at [index] of [queue], the array
    that it has read at its start and whose retry counts it
    increments; or returned. *)
Inductive Task :=
| Idle
| Suspended (queue : list Operation) (index : nat)
| Returned.

Inductive Which := First | Second.

Section overlap.
Context {World : Type}.
Variable fetch : Request -> World -> FetchResult * World.
Variables apiBaseUrl token : string.

(** One turn of a pass.  From the call: the queue is read and the pass
    returns when it is empty, or waits for the answer to its last
    operation.  From an await: the answer of the network is read, the
    body of the loop is run at [index] on the storage as it is now,
    and the pass waits for the next answer or, after index 0, writes
    the stored queue back and returns. *)
Definition turn (task : Task) (w : World) (ls : storage)
  : Task * World * storage :=
  match task with
  | Idle =>
      let queue := syncQueue.getAll ls in
      if (length queue =? 0)%nat then (Returned, w, ls)
      else (Suspended queue (length queue - 1), w, ls)
  | Suspended queue index =>
      let st := replay fetch apiBaseUrl token index (mkPass w ls queue []) in
      match index with
      | S i => (Suspended (pass_queue st) i, pass_world st, pass_storage st)
      | O =>
          let updatedQueue := syncQueue.getAll (pass_storage st) in
          (Returned, pass_world st,
           setItem syncQueue.key (stringify (queue_to_json updatedQueue))
             (pass_storage st))
      end
  | Returned => (Returned, w, ls)
  end.

(** Two passes on one storage and one network. *)
Record Duo := mkDuo {
  first : Task;
  second : Task;
  duo_world : World;
  duo_storage : storage
}.

Definition step (d : Duo) (which : Which) : Duo :=
  match which with
  | First =>
      let '(task, w, ls) := turn (first d) (duo_world d) (duo_storage d) in
      mkDuo task (second d) w ls
  | Second =>
      let '(task, w, ls) := turn (second d) (duo_world d) (duo_storage d) in
      mkDuo (first d) task w ls
  end.

(** The turns are taken in the order of [schedule]. *)
Definition run (schedule : list Which) (d : Duo) : Duo :=
  fold_left step schedule d.

End overlap.

(** The second pass is called while the first one waits for its first
    answer; the first pass then gets its two answers and returns, and
    the second pass gets its two answers. *)
Definition second_starts_during_first : list Which :=
  [First; Second; First; First; Second; Second].

End Overlap.

(** ** The note endpoints on the values of a request body

    [req.body] is what [bodyParser.json()] has parsed: [date] and
    [content] are any JSON values, or absent.  The endpoints of
    [Server] are these on a [date] and a [content] that are strings, as
    the comment of the route documents them. *)

Module Wire.
Import JSON Model.

(** A note of [notes.json], whose [date] is the value that the request
    of its creation held. *)
Record Stored := mkStored {
  stored_id : string;
  stored_userId : string;
  stored_date : json;
  stored_content : string;
  stored_createdAt : string;
  stored_updatedAt : string
}.

Record Reply := mkReply {
  reply_status : N;
  reply_notes : option (list Stored)
}.

(** Truthiness of a value of the body; [None] is [undefined]. *)
Definition truthy (o : option json) : bool :=
  match o with
  | None => false
  | Some JNull => false
  | Some (JBool b) => b
  | Some (JNum n) => negb (n =? 0)%N
  | Some (JStr s) => JsString.truthy s
  | Some (JArr _) => true
  | Some (JObj _) => true
  end.

(** [a === b] for a value read from [notes.json] and a value of the
    request body: two strings, numbers, booleans or nulls are compared
    by value (the numbers of the model are the natural numbers, which a
    double holds exactly below 2^53); an array or an object is equal to
    itself only, and these two come from two calls of [JSON.parse]. *)
Definition strict_eq (a b : json) : bool :=
  match a, b with
  | JNull, JNull => true
  | JBool x, JBool y => Bool.eqb x y
  | JNum x, JNum y => (x =? y)%N
  | JStr x, JStr y => String.eqb x y
  | _, _ => false
  end.

Definition userNotes (sub : string) (notes : list Stored) : list Stored :=
  List.filter (fun note => String.eqb (stored_userId note) sub) notes.

(** [note.content = content.trim(); note.updatedAt = now] *)
Definition rewrite_note (text now : string) (note : Stored) : Stored :=
  mkStored (stored_id note) (stored_userId note) (stored_date note)
    (JsString.trim text) (stored_createdAt note) now.

(** [app.post('/api/notes', ...)].  [!date || !content ||
    !content.trim()] answers 400; on a [content] that is truthy and no
    string, [content.trim] is no function and the [catch] answers
    500. *)
Definition post_notes (sub : string) (date content : option json)
  (fresh : Server.Fresh) (notes : list Stored) : Reply * list Stored :=
  if negb (truthy date) || negb (truthy content) then
    (mkReply 400 None, notes)
  else
    match date, content with
    | Some date, Some (JStr content) =>
        if negb (JsString.truthy (JsString.trim content)) then
          (mkReply 400 None, notes)
        else
          let existingNote :=
            JsString.findIndex
              (fun note => String.eqb (stored_userId note) sub
                           && strict_eq (stored_date note) date)
              notes in
          let notes' :=
            match existingNote with
            | Some i =>
                alter (rewrite_note content (Server.fresh_updatedAt fresh))
                  i notes
            | None =>
                notes ++ [mkStored (Server.fresh_uuid fresh) sub date
                            (JsString.trim content)
                            (Server.fresh_createdAt fresh)
                            (Server.fresh_updatedAt fresh)]
            end in
          (mkReply 201 (Some (userNotes sub notes')), notes')
    | _, _ => (mkReply 500 None, notes)
    end.

(** [app.put('/api/notes/:id', ...)] *)
Definition put_note (sub id : string) (content : option json)
  (now : string) (notes : list Stored) : Reply * list Stored :=
  if negb (truthy content) then (mkReply 400 None, notes)
  else
    match content with
    | Some (JStr content) =>
        if negb (JsString.truthy (JsString.trim content)) then
          (mkReply 400 None, notes)
        else
          match JsString.findIndex
                  (fun n => String.eqb (stored_id n) id
                            && String.eqb (stored_userId n) sub)
                  notes with
          | None => (mkReply 404 None, notes)
          | Some i =>
              let notes' := alter (rewrite_note content now) i notes in
              (mkReply 200 (Some (userNotes sub notes')), notes')
          end
    | _ => (mkReply 500 None, notes)
    end.

(** [app.delete('/api/notes/:id', ...)] *)
Definition delete_note (sub id : string) (notes : list Stored)
  : Reply * list Stored :=
  let filteredNotes :=
    List.filter
      (fun note => negb (String.eqb (stored_id note) id
                         && String.eqb (stored_userId note) sub))
      notes in
  if (length notes =? length filteredNotes)%nat then
    (mkReply 404 None, notes)
  else (mkReply 200 (Some (userNotes sub filteredNotes)), filteredNotes).

(** A request to one of the note endpoints, with the values that the
    handler reads from its environment. *)
Inductive Call :=
| Post (sub : string) (date content : option json) (fresh : Server.Fresh)
| Put (sub id : string) (content : option json) (now : string)
| Delete (sub id : string).

Definition handle (call : Call) (notes : list Stored)
  : Reply * list Stored :=
  match call with
  | Post sub date content fresh => post_notes sub date content fresh notes
  | Put sub id content now => put_note sub id content now notes
  | Delete sub id => delete_note sub id notes
  end.

(** The state after a sequence of requests, handled one after the
    other. *)
Definition run (calls : list Call) (notes : list Stored) : list Stored :=
  fold_left (fun state call => snd (handle call state)) calls notes.

Definition key_of (note : Stored) : string * json :=
  (stored_userId note, stored_date note).

(** At most one note for a user and a date. *)
Definition one_note_per_day (notes : list Stored) : Prop :=
  NoDup (map key_of notes).

(** The [date] of the request is a string, as the comment of the
    route documents it, or absent. *)
Definition string_date (date : option json) : bool :=
  match date with
  | Some (JStr _) => true
  | Some _ => false
  | None => true
  end.

Definition dated (call : Call) : bool :=
  match call with
  | Post _ date _ _ => string_date date
  | _ => true
  end.

Definition with_updatedAt (now : string) (note : Stored) : Stored :=
  mkStored (stored_id note) (stored_userId note) (stored_date note)
    (stored_content note) (stored_createdAt note) now.

(** A note without its [updatedAt]. *)
Definition forget_updatedAt (note : Stored) : Stored :=
  mkStored (stored_id note) (stored_userId note) (stored_date note)
    (stored_content note) (stored_createdAt note) "".

(** The notes and the requests of [Server], whose dates and contents
    are strings, as stored notes and as requests. *)
Definition of_note (note : Note) : Stored :=
  mkStored (note_id note) (note_userId note) (JStr (note_date note))
    (note_content note) (note_createdAt note) (note_updatedAt note).

Definition of_reply (reply : Server.Reply) : Reply :=
  mkReply (Server.reply_status reply)
    (option_map (map of_note) (Server.reply_notes reply)).

Definition of_call (call : Server.Call) : Call :=
  match call with
  | Server.Post sub date content fresh =>
      Post sub (option_map JStr date) (option_map JStr content) fresh
  | Server.Put sub id content now => Put sub id (option_map JStr content) now
  | Server.Delete sub id => Delete sub id
  end.

End Wire.

(** ** Inputs of the runs on the refusing storage, of the overlapping
    passes and of the requests with a date that is no string *)

Module Cases.
Import JSON Model LocalStorage Net OfflineStorage.

(** A backend that accepts the saves and answers 404 to every other
    request. *)
Definition saving_only (request : Request) (w : unit) : FetchResult * unit :=
  if String.eqb (req_method request) "POST" then
    (Responded
       (mkResponse 201
          (Some (stringify (notes_to_json [Scenario.temporary_note])))),
     w)
  else (Responded (mkResponse 404 (Some "{}")), w).


(** A server that answers every request with an HTML page. *)
Definition html_page (request : Request) (w : unit) : FetchResult * unit :=
  (Responded (mkResponse 200 (Some "<html></html>")), w).

(** A save whose [date] is an array. *)
Definition save_with_array_date (fresh : Server.Fresh) : Wire.Call :=
  Wire.Post "u1" (Some (JArr [JStr "2024-06-01"])) (Some (JStr "buy milk"))
    fresh.

Definition replayed_save (fresh : Server.Fresh) : Wire.Call :=
  Wire.of_call (Scenario.replayed_save fresh).

End Cases.

(** * Properties *)

(** ** [findIndex] *)

Module JsFacts.

Lemma findIndex_lookup {A} (p : A -> bool) (l : list A) i :
  JsString.findIndex p l = Some i -> exists x, l !! i = Some x /\ p x = true.
Proof.
  revert i. induction l as [|x l IH]; intros i; [discriminate|].
  cbn [JsString.findIndex]. destruct (p x) eqn:Hp.
  - intros [= <-]. eauto.
  - destruct (JsString.findIndex p l) as [j|]; [|discriminate].
    intros [= <-]. destruct (IH j eq_refl) as (y & Hy & Hpy). eauto.
Qed.

Lemma findIndex_None {A} (p : A -> bool) (l : list A) :
  JsString.findIndex p l = None -> Forall (fun x => p x = false) l.
Proof.
  induction l as [|x l IH]; cbn [JsString.findIndex]; [constructor|].
  destruct (p x) eqn:Hp; [discriminate|].
  destruct (JsString.findIndex p l); [discriminate|].
  intros _. constructor; auto.
Qed.

Lemma findIndex_alter {A} (p : A -> bool) (g : A -> A) i (l : list A) :
  (forall x, p (g x) = p x) ->
  JsString.findIndex p (alter g i l) = JsString.findIndex p l.
Proof.
  intros Hg. revert i. induction l as [|x l IH]; intros [|i];
    cbn; rewrite ?Hg, ?IH; reflexivity.
Qed.

Lemma findIndex_app_last {A} (p : A -> bool) (l : list A) x :
  JsString.findIndex p l = None -> p x = true ->
  JsString.findIndex p (l ++ [x]) = Some (length l).
Proof.
  intros Hnone Hx. induction l as [|y l IH]; cbn in *; [now rewrite Hx|].
  destruct (p y); [discriminate|].
  destruct (JsString.findIndex p l); [discriminate|].
  now rewrite IH.
Qed.

End JsFacts.

(** ** [JSON.parse] inverts [JSON.stringify] *)

Module JSONFacts.
Import Chars JSON.

Lemma parse_chars_escape_char c s :
  parse_chars (escape_char c ++ s) = push c (parse_chars s).
Proof. destruct c as [[] [] [] [] [] [] [] []]; reflexivity. Qed.

Lemma parse_chars_escape l rest :
  parse_chars (escape l ++ quote :: rest) = Some (l, rest).
Proof.
  induction l as [|c l IH]; [reflexivity|].
  unfold escape in *. simpl flat_map. rewrite <- app_assoc.
  rewrite parse_chars_escape_char, IH. reflexivity.
Qed.

Lemma parse_uint_chars d rest :
  no_digit_head rest -> parse_uint (JsString.uint_chars d ++ rest) = (d, rest).
Proof.
  intros Hrest. induction d; simpl;
    try (change (parse_uint (JsString.uint_chars d ++ rest))
           with (parse_uint (JsString.uint_chars d ++ rest));
         rewrite IHd; reflexivity).
  destruct rest as [|c r]; [reflexivity|]. simpl in *. now rewrite Hrest.
Qed.

Lemma nzhead_not_D0 d x : Decimal.nzhead d <> D0 x.
Proof. induction d; simpl; congruence. Qed.

Lemma to_uint_shape n :
  N.to_uint n <> Nil /\ forall x, N.to_uint n = D0 x -> x = Nil /\ n = 0%N.
Proof.
  pose proof (DecimalN.Unsigned.to_of (N.to_uint n)) as H.
  rewrite DecimalN.Unsigned.of_to in H.
  pose proof (DecimalN.Unsigned.of_to n) as Hn.
  unfold Decimal.unorm in H.
  destruct (Decimal.nzhead (N.to_uint n)) eqn:E;
    try (rewrite H; split; [discriminate | intros x Hx; discriminate]).
  - rewrite H in *. split; [discriminate|].
    intros x Hx. injection Hx as <-. split; [reflexivity|].
    now rewrite <- Hn.
  - exfalso. eapply nzhead_not_D0. exact E.
Qed.

Lemma parse_number_digits n rest :
  no_digit_head rest ->
  parse_number (JsString.digits n ++ rest) = Some (JNum n, rest).
Proof.
  intros Hrest. unfold parse_number, JsString.digits.
  rewrite parse_uint_chars by assumption.
  destruct (to_uint_shape n) as [Hnil H0].
  pose proof (DecimalN.Unsigned.of_to n) as Hn.
  destruct (N.to_uint n) as [|d| | | | | | | | |] eqn:E;
    try congruence.
  destruct (H0 d eq_refl) as [-> ->]. reflexivity.
Qed.

Lemma join_cons p ps : join (p :: ps) = p ++ join_tail ps.
Proof.
  revert p. induction ps as [|q ps IH]; intros p; simpl.
  - now rewrite app_nil_r.
  - f_equal. f_equal. apply IH.
Qed.

Lemma print_head v :
  exists c r, print v = c :: r /\ token_start c = true.
Proof.
  destruct v as [|[]|n|s|items|members]; simpl;
    try (eexists _, _; split; [reflexivity|reflexivity]).
  unfold JsString.digits.
  destruct (to_uint_shape n) as [Hnil _].
  destruct (N.to_uint n); try congruence; simpl;
    eexists _, _; (split; [reflexivity|reflexivity]).
Qed.

Lemma token_start_no_digit_sep c r :
  code c = 44%N \/ code c = 93%N \/ code c = 125%N ->
  no_digit_head (c :: r).
Proof.
  unfold no_digit_head, is_digit.
  intros [-> | [-> | ->]]; reflexivity.
Qed.

(** One step of [parse_value], [parse_items] and [parse_members] on the
    characters that [print] produces. *)

Lemma parse_value_digit f c r :
  is_digit c = true -> parse_value (S f) (c :: r) = parse_number (c :: r).
Proof.
  destruct c as [[] [] [] [] [] [] [] []]; intros H;
    first [discriminate H | reflexivity].
Qed.

Lemma parse_value_string f r :
  parse_value (S f) (quote :: r) =
  match parse_chars r with
  | Some (str, r') => Some (JStr (string_of_list_ascii str), r')
  | None => None
  end.
Proof. reflexivity. Qed.

Lemma parse_value_array f c r :
  token_start c = true ->
  parse_value (S f) ("["%char :: c :: r) =
  match parse_value f (c :: r) with
  | Some (x, r2) =>
      match parse_items f r2 with
      | Some (xs, r3) => Some (JArr (x :: xs), r3)
      | None => None
      end
  | None => None
  end.
Proof.
  destruct c as [[] [] [] [] [] [] [] []]; intros H;
    first [discriminate H | reflexivity].
Qed.

Lemma parse_items_comma f r :
  parse_items (S f) (","%char :: r) =
  match parse_value f r with
  | Some (x, r1) =>
      match parse_items f r1 with
      | Some (xs, r2) => Some (x :: xs, r2)
      | None => None
      end
  | None => None
  end.
Proof. reflexivity. Qed.

Lemma parse_value_object f r :
  parse_value (S f) ("{"%char :: quote :: r) =
  match parse_key (quote :: r) with
  | Some (k, r2) =>
      match parse_value f r2 with
      | Some (x, r3) =>
          match parse_members f r3 with
          | Some (ms, r4) => Some (JObj ((k, x) :: ms), r4)
          | None => None
          end
      | None => None
      end
  | None => None
  end.
Proof. reflexivity. Qed.

Lemma parse_members_comma f r :
  parse_members (S f) (","%char :: r) =
  match parse_key r with
  | Some (k, r1) =>
      match parse_value f r1 with
      | Some (x, r2) =>
          match parse_members f r2 with
          | Some (ms, r3) => Some ((k, x) :: ms, r3)
          | None => None
          end
      | None => None
      end
  | None => None
  end.
Proof. reflexivity. Qed.

Lemma parse_key_quote k r :
  parse_key (quote_string k ++ ":"%char :: r) = Some (k, r).
Proof.
  unfold parse_key, quote_string. simpl app.
  change (skip_ws (quote :: ?x)) with (quote :: x).
  cbn [skip_ws JsString.dropWhile is_json_ws code quote].
  change (skip_ws (quote :: (escape (chars k) ++ [quote]) ++ ":"%char :: r))
    with (quote :: (escape (chars k) ++ [quote]) ++ ":"%char :: r).
  cbv beta iota.
  change ((code quote =? 34)%N) with true. cbv iota.
  rewrite <- app_assoc. simpl app.
  rewrite parse_chars_escape.
  change (skip_ws (":"%char :: r)) with (":"%char :: r).
  cbv beta iota. change ((code ":"%char =? 58)%N) with true. cbv iota.
  unfold chars. now rewrite string_of_list_ascii_of_string.
Qed.

Lemma join_tail_cons p ps :
  join_tail (p :: ps) = ","%char :: p ++ join_tail ps.
Proof. reflexivity. Qed.

Lemma member_tail_app k x tl rest :
  (","%char :: member_text (k, x) ++ tl) ++ rest
  = ","%char :: quote_string k ++ ":"%char :: (print x ++ (tl ++ rest)).
Proof.
  unfold member_text. simpl. now rewrite <- ?app_assoc.
Qed.

Lemma parse_items_tail xs :
  Forall parses xs ->
  forall fuel rest,
    length xs + list_sum (map size xs) < fuel ->
    parse_items fuel (join_tail (map print xs) ++ "]"%char :: rest)
    = Some (xs, rest).
Proof.
  induction 1 as [|x xs Hx _ IH]; intros fuel rest Hfuel.
  - destruct fuel as [|f]; [simpl in Hfuel; lia|]. reflexivity.
  - destruct fuel as [|f]; [simpl in Hfuel; lia|].
    simpl in Hfuel. rewrite map_cons, join_tail_cons.
    rewrite <- app_comm_cons, <- app_assoc, parse_items_comma.
    rewrite Hx; [|lia|].
    + rewrite IH by lia. reflexivity.
    + destruct xs; simpl; reflexivity.
Qed.

Lemma parse_members_tail ms :
  Forall (fun kv => parses (snd kv)) ms ->
  forall fuel rest,
    length ms + list_sum (map (fun kv => let '(_, x) := kv in size x) ms)
    < fuel ->
    parse_members fuel
      (join_tail (map member_text ms) ++ "}"%char :: rest)
    = Some (ms, rest).
Proof.
  induction 1 as [|[k x] ms Hx _ IH]; intros fuel rest Hfuel.
  - destruct fuel as [|f]; [simpl in Hfuel; lia|]. reflexivity.
  - destruct fuel as [|f]; [simpl in Hfuel; lia|].
    simpl in Hfuel, Hx. rewrite map_cons, join_tail_cons, member_tail_app.
    rewrite parse_members_comma, parse_key_quote.
    rewrite Hx; [|lia|].
    + rewrite IH by lia. reflexivity.
    + destruct ms; simpl; reflexivity.
Qed.

Lemma print_array_cons x xs rest :
  print (JArr (x :: xs)) ++ rest
  = "["%char :: print x ++ (join_tail (map print xs) ++ "]"%char :: rest).
Proof.
  cbn [print]. rewrite map_cons, join_cons.
  rewrite <- app_comm_cons, <- !app_assoc. reflexivity.
Qed.

Lemma print_object_cons k x ms rest :
  print (JObj ((k, x) :: ms)) ++ rest
  = "{"%char :: quote_string k ++ ":"%char ::
      (print x ++ (join_tail (map member_text ms) ++ "}"%char :: rest)).
Proof.
  cbn [print]. fold member_text. rewrite map_cons, join_cons.
  unfold member_text at 1.
  rewrite <- app_comm_cons, <- !app_assoc, <- app_comm_cons. reflexivity.
Qed.

Lemma parse_print v : parses v.
Proof.
  induction v as [|b|n|s|items IH|members IH] using json_nested_ind;
    intros fuel rest Hfuel Hrest;
    (destruct fuel as [|f]; [simpl in Hfuel; lia|]).
  - reflexivity.
  - destruct b; reflexivity.
  - destruct (print_head (JNum n)) as (c & r & E & Hc).
    rewrite E. rewrite <- app_comm_cons.
    assert (Hd : is_digit c = true).
    { cbn [print] in E. unfold JsString.digits in E.
      destruct (N.to_uint n); inversion E; reflexivity. }
    rewrite parse_value_digit by exact Hd.
    rewrite app_comm_cons, <- E. cbn [print].
    now apply parse_number_digits.
  - cbn [print]. unfold quote_string. rewrite <- app_comm_cons.
    rewrite parse_value_string, <- app_assoc.
    change ([quote] ++ rest) with (quote :: rest).
    rewrite parse_chars_escape. unfold chars.
    now rewrite string_of_list_ascii_of_string.
  - destruct items as [|x xs]; [reflexivity|].
    inversion IH as [|? ? Hx Hxs]; subst.
    rewrite print_array_cons.
    destruct (print_head x) as (c & r & E & Hc).
    assert (Hsize : size (JArr (x :: xs))
                    = S (S (length xs + (size x + list_sum (map size xs)))))
      by reflexivity.
    rewrite Hsize in Hfuel.
    rewrite E, <- app_comm_cons, (parse_value_array f c _ Hc).
    rewrite app_comm_cons, <- E.
    rewrite Hx; [|lia|destruct xs; reflexivity].
    rewrite parse_items_tail by (assumption || lia). reflexivity.
  - destruct members as [|[k x] ms]; [reflexivity|].
    inversion IH as [|? ? Hx Hxs]; subst. simpl in Hx.
    rewrite print_object_cons.
    assert (Hsize :
      size (JObj ((k, x) :: ms))
      = S (S (length ms
              + (size x
                 + list_sum (map (fun kv => let '(_, y) := kv in size y) ms)))))
      by reflexivity.
    rewrite Hsize in Hfuel.
    unfold quote_string at 1. rewrite <- app_comm_cons.
    rewrite parse_value_object.
    change (quote :: (escape (chars k) ++ [quote]) ++ ?t)
      with (quote_string k ++ t).
    rewrite parse_key_quote.
    rewrite Hx; [|lia|destruct ms; reflexivity].
    rewrite parse_members_tail by (assumption || lia). reflexivity.
Qed.

Lemma length_join_tail parts :
  length (join_tail parts)
  = length parts + list_sum (map (@length ascii) parts).
Proof.
  induction parts as [|p ps IH]; [reflexivity|].
  rewrite join_tail_cons. simpl. rewrite length_app, IH. lia.
Qed.

Lemma size_le_print v : size v <= length (print v).
Proof.
  induction v as [|b|n|s|items IH|members IH] using json_nested_ind.
  - simpl. lia.
  - destruct b; simpl; lia.
  - destruct (print_head (JNum n)) as (c & r & E & _). rewrite E. simpl. lia.
  - simpl. lia.
  - destruct items as [|x xs]; [simpl; lia|].
    pose proof (print_array_cons x xs []) as E. rewrite app_nil_r in E.
    rewrite E. inversion IH as [|? ? Hx Hxs]; subst.
    cbn [size length map list_sum]. rewrite length_app, length_app.
    rewrite length_join_tail, length_map, map_map. cbn [length].
    assert (list_sum (map size xs)
            <= list_sum (map (fun y => length (print y)) xs)).
    { clear -Hxs. induction Hxs; simpl; lia. }
    simpl list_sum. lia.
  - destruct members as [|[k x] ms]; [simpl; lia|].
    pose proof (print_object_cons k x ms []) as E. rewrite app_nil_r in E.
    rewrite E. inversion IH as [|? ? Hx Hxs]; subst. simpl in Hx.
    cbn [size length map list_sum].
    rewrite length_app. cbn [length]. rewrite !length_app.
    rewrite length_join_tail, length_map, map_map. cbn [length].
    assert (list_sum (map (fun kv => let '(_, y) := kv in size y) ms)
            <= list_sum (map (fun kv => length (member_text kv)) ms)).
    { clear -Hxs. induction Hxs as [|[k' y] l Hy _ IHl]; simpl in *;
        [lia|]. rewrite length_app. simpl. rewrite length_app. simpl. lia. }
    simpl list_sum. lia.
Qed.

(** [JSON.parse(JSON.stringify(v))] gives [v] back. *)
Lemma parse_stringify v : parse (stringify v) = Some v.
Proof.
  unfold parse, stringify, chars.
  rewrite list_ascii_of_string_of_list_ascii.
  pose proof (parse_print v (S (length (print v))) []) as H.
  rewrite app_nil_r in H. rewrite H; [reflexivity| |exact I].
  pose proof (size_le_print v). lia.
Qed.

(** The text of a value is never the empty string. *)
Lemma stringify_truthy v : JsString.truthy (stringify v) = true.
Proof.
  unfold stringify. destruct (print_head v) as (c & r & E & _).
  rewrite E. reflexivity.
Qed.

End JSONFacts.

(** ** Records survive the passage through JSON text *)

Module ModelFacts.
Import JSON Model JSONFacts.

Lemma decode_list_map {A} (f : json -> option A) (g : A -> json) l :
  (forall x, f (g x) = Some x) -> decode_list f (map g l) = Some l.
Proof.
  intros Hfg. induction l as [|x l IH]; [reflexivity|].
  simpl. now rewrite Hfg, IH.
Qed.

Lemma note_of_to_json n : note_of_json (note_to_json n) = Some n.
Proof. destruct n. reflexivity. Qed.

Lemma notes_of_to_json ns : notes_of_json (notes_to_json ns) = Some ns.
Proof. apply decode_list_map, note_of_to_json. Qed.

Lemma headers_of_to_json hs : headers_of_json (headers_to_json hs) = Some hs.
Proof.
  unfold headers_of_json, headers_to_json.
  induction hs as [|[k v] hs IH]; [reflexivity|].
  simpl in *. now rewrite IH.
Qed.

Lemma body_of_to_json b : body_of_json (body_to_json b) = Some b.
Proof. destruct b as [[d c]|]; reflexivity. Qed.

Lemma operation_of_to_json o : operation_of_json (operation_to_json o) = Some o.
Proof.
  destruct o as [me u hs b t r].
  unfold operation_of_json, operation_to_json.
  cbn [op_method op_url op_headers op_body op_timestamp op_retries].
  change (str_field "method" _) with (Some me).
  change (str_field "url" _) with (Some u).
  change (field "headers" _) with (Some (headers_to_json hs)).
  change (field "body" _) with (Some (body_to_json b)).
  change (num_field "timestamp" _) with (Some t).
  change (num_field "retries" _) with (Some r).
  cbv beta iota. now rewrite headers_of_to_json, body_of_to_json.
Qed.

Lemma queue_of_to_json q : queue_of_json (queue_to_json q) = Some q.
Proof. apply decode_list_map, operation_of_to_json. Qed.

Lemma session_of_to_json s : session_of_json (session_to_json s) = Some s.
Proof. destruct s as [t [i n]]. reflexivity. Qed.

Lemma parse_as_stringify {A} (decode : json -> option A) v :
  parse_as decode (stringify v) = decode v.
Proof. unfold parse_as. now rewrite parse_stringify. Qed.

End ModelFacts.

(** ** The stores of [offlineStorage.js] *)

Module StorageFacts.
Import JSON Model LocalStorage Net OfflineStorage JSONFacts ModelFacts.

Lemma parse_or_stringify {A} (decode : json -> option A) fallback v x :
  decode v = Some x ->
  parse_or decode fallback (Some (stringify v)) = x.
Proof.
  intros H. unfold parse_or.
  now rewrite stringify_truthy, parse_as_stringify, H.
Qed.

Lemma notes_key_inj u u' :
  getUserKey u "notes" = getUserKey u' "notes" -> u = u'.
Proof. cbv [getUserKey STORAGE_PREFIX String.append]. congruence. Qed.

Lemma notes_key_not_queue u : getUserKey u "notes" <> syncQueue.key.
Proof.
  cbv [getUserKey syncQueue.key STORAGE_PREFIX String.append]. congruence.
Qed.

Lemma notes_key_not_session u : getUserKey u "notes" <> sessionStorage.key.
Proof.
  cbv [getUserKey sessionStorage.key STORAGE_PREFIX String.append].
  congruence.
Qed.

Lemma session_key_not_queue : sessionStorage.key <> syncQueue.key.
Proof.
  cbv [sessionStorage.key syncQueue.key STORAGE_PREFIX String.append].
  congruence.
Qed.

(** *** notesStorage *)

Lemma load_save u ns ls :
  notesStorage.load u (snd (notesStorage.save u ns ls)) = ns.
Proof.
  unfold notesStorage.load, notesStorage.save, getItem, setItem. simpl.
  rewrite lookup_insert_eq.
  apply parse_or_stringify, notes_of_to_json.
Qed.

Lemma load_save_other u u' ns ls :
  u <> u' ->
  notesStorage.load u (snd (notesStorage.save u' ns ls))
  = notesStorage.load u ls.
Proof.
  intros Hne. unfold notesStorage.load, notesStorage.save, getItem, setItem.
  simpl. rewrite lookup_insert_ne; [reflexivity|].
  intros H. apply Hne. symmetry. now apply notes_key_inj.
Qed.

Lemma load_clear u ls : notesStorage.load u (notesStorage.clear u ls) = [].
Proof.
  unfold notesStorage.load, notesStorage.clear, getItem, removeItem.
  simpl. now rewrite lookup_delete_eq.
Qed.

(** *** syncQueue *)

Lemma getAll_setItem q ls :
  syncQueue.getAll
    (setItem syncQueue.key (stringify (queue_to_json q)) ls) = q.
Proof.
  unfold syncQueue.getAll, getItem, setItem. rewrite lookup_insert_eq.
  apply parse_or_stringify, queue_of_to_json.
Qed.

Lemma getAll_frame k v ls :
  k <> syncQueue.key ->
  syncQueue.getAll (setItem k v ls) = syncQueue.getAll ls.
Proof.
  intros Hk. unfold syncQueue.getAll, getItem, setItem.
  now rewrite lookup_insert_ne.
Qed.

Lemma getAll_removeItem_frame k ls :
  k <> syncQueue.key ->
  syncQueue.getAll (removeItem k ls) = syncQueue.getAll ls.
Proof.
  intros Hk. unfold syncQueue.getAll, getItem, removeItem.
  now rewrite lookup_delete_ne.
Qed.

Lemma getAll_add operation now ls :
  syncQueue.getAll (snd (syncQueue.add operation now ls))
  = syncQueue.getAll ls
    ++ [mkOperation (in_method operation) (in_url operation)
          (in_headers operation) (in_body operation) now 0].
Proof. unfold syncQueue.add. simpl. apply getAll_setItem. Qed.

Lemma getAll_remove i ls :
  syncQueue.getAll (snd (syncQueue.remove i ls))
  = delete i (syncQueue.getAll ls).
Proof. unfold syncQueue.remove. simpl. apply getAll_setItem. Qed.

Lemma getAll_clear ls : syncQueue.getAll (syncQueue.clear ls) = [].
Proof.
  unfold syncQueue.getAll, syncQueue.clear, getItem, removeItem.
  now rewrite lookup_delete_eq.
Qed.

Lemma getAll_notes_save u ns ls :
  syncQueue.getAll (snd (notesStorage.save u ns ls)) = syncQueue.getAll ls.
Proof. apply getAll_frame, notes_key_not_queue. Qed.

Lemma load_queue_frame u v ls :
  notesStorage.load u (setItem syncQueue.key v ls) = notesStorage.load u ls.
Proof.
  unfold notesStorage.load, getItem, setItem. simpl.
  rewrite lookup_insert_ne; [reflexivity|].
  intros H. now apply (notes_key_not_queue u).
Qed.

Lemma load_add u operation now ls :
  notesStorage.load u (snd (syncQueue.add operation now ls))
  = notesStorage.load u ls.
Proof. unfold syncQueue.add. simpl. apply load_queue_frame. Qed.

(** The stores of [Quota] on a storage that accepts every write are
    those of [OfflineStorage]. *)
Lemma unlimited_stores u ns session operation now index ls :
  Quota.notesStorage.save Quota.unlimited u ns ls = notesStorage.save u ns ls /\
  Quota.sessionStorage.save Quota.unlimited session ls
    = sessionStorage.save session ls /\
  Quota.syncQueue.add Quota.unlimited operation now ls
    = syncQueue.add operation now ls /\
  Quota.syncQueue.remove Quota.unlimited index ls = syncQueue.remove index ls.
Proof. repeat split. Qed.

Lemma attempt_spec accepts key text ls :
  let after := Quota.attempt accepts key text ls in
  fst after = accepts key text ls /\
  snd after = if accepts key text ls then setItem key text ls else ls.
Proof.
  cbv zeta. unfold Quota.attempt, Quota.setItem.
  now destruct (accepts key text ls).
Qed.

(** C7, as the specification states it, fails: when the browser
    refuses the write, [save] returns [false] and the [load] that
    follows returns the notes that were cached before, not the notes
    given to [save]. *)
Lemma refused_save_keeps_the_old_cache :
  let ls := snd (notesStorage.save "u1" [Scenario.other_note] ∅) in
  let after :=
    Quota.notesStorage.save Quota.refusing "u1" [Scenario.confirmed_note]
      ls in
  fst after = false /\
  notesStorage.load "u1" (snd after) = [Scenario.other_note] /\
  notesStorage.load "u1" (snd after) <> [Scenario.confirmed_note].
Proof.
  cbv zeta. split; [reflexivity|].
  assert (H : notesStorage.load "u1"
                (snd (Quota.notesStorage.save Quota.refusing "u1"
                        [Scenario.confirmed_note]
                        (snd (notesStorage.save "u1" [Scenario.other_note]
                                ∅))))
              = [Scenario.other_note]) by apply load_save.
  split; [exact H|]. rewrite H. discriminate.
Qed.

(** C7, amended. Cache round trip: for every user and every array of
    notes, [notesStorage.save(u, N)] returns [true] exactly when the
    browser accepts the write, and then the [notesStorage.load(u)] that
    follows returns [N]; when the write is refused, [save] returns
    [false] and the storage is as before, so that [load] returns what
    it returned before. *)
Theorem notes_cache_round_trip (accepts : Quota.Policy) (u : string)
  (ns : list Note) (ls : storage) :
  let after := Quota.notesStorage.save accepts u ns ls in
  fst after
  = accepts (getUserKey u "notes") (stringify (notes_to_json ns)) ls /\
  if fst after then notesStorage.load u (snd after) = ns
  else snd after = ls.
Proof.
  cbv zeta. unfold Quota.notesStorage.save. cbv zeta.
  destruct (attempt_spec accepts (getUserKey u "notes")
              (stringify (notes_to_json ns)) ls) as [Hfst Hsnd].
  cbv zeta in *. split; [exact Hfst|].
  rewrite Hfst, Hsnd. destruct (accepts _ _ ls); [|reflexivity].
  apply load_save.
Qed.

End StorageFacts.

(** ** A pass of [retryFailedRequests] over the queue *)

Module RetryFacts.
Import JSON Model LocalStorage Net OfflineStorage.
Import JSONFacts ModelFacts StorageFacts.

Section pass.
Context {World : Type}.
Variable fetch : Request -> World -> FetchResult * World.
Variables apiBaseUrl token : string.

Local Abbreviation replay := (OfflineStorage.replay fetch apiBaseUrl token).
Local Abbreviation replay_from :=
  (OfflineStorage.replay_from fetch apiBaseUrl token).

(** The replay at index [i] of a pass whose array holds [operation]
    there: the entry it logs, and what it leaves in memory and in the
    storage. *)
Lemma replay_at i operation st :
  pass_queue st !! i = Some operation ->
  exists e,
    replay_index e = i /\ replay_operation e = operation /\
    replay_request e = operation_request apiBaseUrl token operation /\
    (replay_result e, pass_world (replay i st))
      = fetch (replay_request e) (pass_world st) /\
    pass_log (replay i st) = pass_log st ++ [e] /\
    take i (pass_queue (replay i st)) = take i (pass_queue st) /\
    length (pass_queue (replay i st)) = length (pass_queue st) /\
    syncQueue.getAll (pass_storage (replay i st))
      = if kept e then syncQueue.getAll (pass_storage st)
        else delete i (syncQueue.getAll (pass_storage st)).
Proof.
  intros Hop. unfold OfflineStorage.replay. rewrite Hop.
  destruct (fetch (operation_request apiBaseUrl token operation)
              (pass_world st)) as [result w] eqn:Hfetch.
  exists (mkReplay i operation
            (operation_request apiBaseUrl token operation) result).
  cbn [replay_index replay_operation replay_request replay_result].
  rewrite Hfetch.
  assert (Hfail :
    result_ok result = false ->
    let after :=
      still_failing i operation (pass_queue st) (pass_storage st) in
    take i (fst after) = take i (pass_queue st) /\
    length (fst after) = length (pass_queue st) /\
    syncQueue.getAll (snd after)
      = if kept (mkReplay i operation
                   (operation_request apiBaseUrl token operation) result)
        then syncQueue.getAll (pass_storage st)
        else delete i (syncQueue.getAll (pass_storage st))).
  { intros Hres. unfold still_failing, kept, removed, exhausted.
    cbn [replay_result replay_operation]. rewrite Hres. cbn [orb].
    destruct (5 <? op_retries (bump operation))%N;
      cbn [negb fst snd]; rewrite take_insert_ge, length_insert by lia;
      rewrite ?getAll_remove; auto. }
  destruct result as [| |response].
  - specialize (Hfail eq_refl). cbv zeta in Hfail.
    destruct (still_failing i operation (pass_queue st) (pass_storage st))
      as [queue' ls'].
    destruct Hfail as (? & ? & ?). cbn. auto 10.
  - specialize (Hfail eq_refl). cbv zeta in Hfail.
    destruct (still_failing i operation (pass_queue st) (pass_storage st))
      as [queue' ls'].
    destruct Hfail as (? & ? & ?). cbn. auto 10.
  - destruct (ok response) eqn:Hok.
    + cbn. unfold kept, removed. cbn [replay_result result_ok].
      rewrite Hok. cbn. rewrite getAll_setItem. auto 10.
    + specialize (Hfail Hok). cbv zeta in Hfail.
      destruct (still_failing i operation (pass_queue st) (pass_storage st))
        as [queue' ls'].
      destruct Hfail as (? & ? & ?). cbn. auto 10.
Qed.

(** The loop from index [k - 1] down to 0, when the first [k] stored
    entries are the first [k] entries of the array in memory. *)
Lemma replay_from_spec k :
  forall st tail,
    k <= length (pass_queue st) ->
    syncQueue.getAll (pass_storage st) = take k (pass_queue st) ++ tail ->
    exists entries,
      pass_log (replay_from k st) = pass_log st ++ entries /\
      map replay_index entries = rev (seq 0 k) /\
      map replay_operation entries = rev (take k (pass_queue st)) /\
      Forall (replayed_by fetch apiBaseUrl token) entries /\
      syncQueue.getAll (pass_storage (replay_from k st))
        = rev (map replay_operation (List.filter kept entries)) ++ tail.
Proof.
  induction k as [|i IH]; intros st tail Hlen Hstored.
  - exists []. cbn. rewrite app_nil_r. rewrite take_0 in Hstored.
    auto using Forall_nil_2.
  - destruct (lookup_lt_is_Some_2 (pass_queue st) i) as [operation Hop];
      [lia|].
    destruct (replay_at i operation st Hop)
      as (e & Hi & Ho & Hreq & Hres & Hlog & Htake & Hlength & Hstore).
    rewrite (take_S_r _ _ _ Hop) in Hstored |- *.
    specialize (IH (replay i st)
                  (if kept e then operation :: tail else tail)).
    destruct IH as (entries & Hlog' & Hidx & Hops & Hreqs & Hfinal).
    + rewrite Hlength. lia.
    + rewrite Hstore, Hstored, Htake.
      destruct (kept e).
      * now rewrite <- app_assoc.
      * rewrite <- app_assoc. cbn [app].
        pose proof (delete_middle (take i (pass_queue st)) tail operation)
          as Hd.
        rewrite length_take, Nat.min_l in Hd by lia. exact Hd.
    + exists (e :: entries).
      change (replay_from (S i) st) with (replay_from i (replay i st)).
      rewrite Hlog', Hlog, <- app_assoc. repeat split.
      * cbn [map]. rewrite Hidx, Hi, seq_S, rev_app_distr. reflexivity.
      * cbn [map]. rewrite Hops, Ho, Htake, rev_app_distr. reflexivity.
      * constructor; [|exact Hreqs].
        split; [now rewrite Hreq, Ho|].
        exists (pass_world st). now rewrite <- Hres.
      * rewrite Hfinal. cbn [List.filter].
        destruct (kept e); [|reflexivity].
        cbn. rewrite Ho, <- app_assoc. reflexivity.
Qed.

Lemma retry_spec w ls :
  let pass := retryFailedRequests fetch apiBaseUrl token w ls in
  map replay_index (pass_log pass)
    = rev (seq 0 (length (syncQueue.getAll ls))) /\
  map replay_operation (pass_log pass) = rev (syncQueue.getAll ls) /\
  Forall (replayed_by fetch apiBaseUrl token) (pass_log pass) /\
  syncQueue.getAll (pass_storage pass)
    = rev (map replay_operation (List.filter kept (pass_log pass))).
Proof.
  unfold retryFailedRequests.
  destruct (syncQueue.getAll ls) as [|operation queue] eqn:Hq.
  - cbn. rewrite Hq. auto using Forall_nil_2.
  - rewrite <- Hq.
    destruct (length (syncQueue.getAll ls) =? 0)%nat eqn:Hlen.
    { apply Nat.eqb_eq in Hlen. rewrite Hq in Hlen. discriminate. }
    destruct (replay_from_spec (length (syncQueue.getAll ls))
                (mkPass w ls (syncQueue.getAll ls) []) [])
      as (entries & Hlog & Hidx & Hops & Hreqs & Hfinal).
    + cbn. lia.
    + cbn. now rewrite firstn_all, app_nil_r.
    + cbn [pass_log pass_queue pass_storage] in *.
      rewrite app_nil_l in Hlog. rewrite app_nil_r in Hfinal.
      fold replay_from. rewrite getAll_setItem, Hlog.
      rewrite firstn_all in Hops. auto.
Qed.

(** When no replay gets an [ok] response and no stored retry count
    has reached 5, a pass leaves the stored queue as it found it:
    the incremented counts are those of the array in memory. *)
Lemma failing_pass_keeps_queue w ls :
  (forall request w0, result_ok (fst (fetch request w0)) = false) ->
  Forall (fun operation => (op_retries operation < 5)%N)
    (syncQueue.getAll ls) ->
  syncQueue.getAll
    (pass_storage (retryFailedRequests fetch apiBaseUrl token w ls))
  = syncQueue.getAll ls.
Proof.
  intros Hdown Hfresh.
  destruct (retry_spec w ls) as (_ & Hops & Hby & Hfinal).
  cbv zeta in *. rewrite Hfinal.
  set (log := pass_log _) in *. clearbody log.
  assert (Hkept : List.filter kept log = log).
  { assert (Hlow : Forall (fun operation => (op_retries operation < 5)%N)
                     (map replay_operation log)).
    { rewrite Hops. apply Forall_forall. intros x Hx.
      apply list_elem_of_In, in_rev, list_elem_of_In in Hx.
      rewrite Forall_forall in Hfresh. auto. }
    clear Hops Hfinal.
    induction Hby as [|e log [_ [w0 He]] _ IH]; [reflexivity|].
    inversion Hlow as [|? ? Hlow1 Hlow2]; subst. cbn [List.filter].
    unfold kept at 1, removed, exhausted, bump. cbn [op_retries].
    rewrite He, Hdown. cbn [orb].
    replace (5 <? op_retries (replay_operation e) + 1)%N with false
      by (symmetry; apply N.ltb_ge; lia).
    cbn [negb]. now rewrite IH. }
  rewrite Hkept, Hops. apply rev_involutive.
Qed.

End pass.

(** A pass of [retryFailedRequests] during which nothing else runs
    replays every operation of the stored queue once, and an operation
    leaves the stored queue only when its replay got an [ok] response
    or its incremented retry count is above 5: the stored queue after
    the pass consists of the operations whose replay was [kept], in
    their order.  Passes that overlap are in [OverlapFacts]. *)
Theorem retry_removes_only_ok_or_exhausted {World : Type}
  (fetch : Request -> World -> FetchResult * World)
  (apiBaseUrl token : string) (w : World) (ls : storage) :
  let pass := retryFailedRequests fetch apiBaseUrl token w ls in
  map replay_operation (pass_log pass) = rev (syncQueue.getAll ls) /\
  Forall (replayed_by fetch apiBaseUrl token) (pass_log pass) /\
  syncQueue.getAll (pass_storage pass)
    = rev (map replay_operation (List.filter kept (pass_log pass))) /\
  (forall e,
      In e (pass_log pass) -> removed e = false ->
      In (replay_operation e) (syncQueue.getAll (pass_storage pass))).
Proof.
  destruct (retry_spec fetch apiBaseUrl token w ls)
    as (_ & Hops & Hby & Hfinal).
  cbv zeta. repeat split; try assumption.
  intros e He Hkeep. rewrite Hfinal. apply -> in_rev.
  apply in_map, filter_In. split; [exact He|].
  unfold kept. now rewrite Hkeep.
Qed.

(** On a network that is down, with a save and a delete queued: the
    replay of the save is in the log, it is not [removed], and the save
    is still in the stored queue after the pass. *)
Lemma failed_save_replay_keeps_the_save :
  let pass :=
    retryFailedRequests Scenario.down "" "" tt Scenario.two_queued in
  (In Scenario.failed_save_replay (pass_log pass) /\
   removed Scenario.failed_save_replay = false) /\
  In Scenario.queued_save (syncQueue.getAll (pass_storage pass)).
Proof.
  cbv zeta.
  assert (Hin : In Scenario.failed_save_replay
                  (pass_log (retryFailedRequests Scenario.down "" "" tt
                               Scenario.two_queued)))
    by (vm_compute; auto).
  split; [split; [exact Hin | reflexivity]|].
  destruct (retry_removes_only_ok_or_exhausted Scenario.down "" "" tt
              Scenario.two_queued) as (_ & _ & _ & Hkept).
  exact (Hkept Scenario.failed_save_replay Hin eq_refl).
Defined.



(** The same after any number of passes. *)
Lemma failing_passes_keep_queue {World : Type}
  (fetch : Request -> World -> FetchResult * World)
  (apiBaseUrl token : string) (n : nat) (w : World) (ls : storage) :
  (forall request w0, result_ok (fst (fetch request w0)) = false) ->
  Forall (fun operation => (op_retries operation < 5)%N)
    (syncQueue.getAll ls) ->
  syncQueue.getAll (snd (passes fetch apiBaseUrl token n w ls))
  = syncQueue.getAll ls.
Proof.
  intros Hdown. revert w ls.
  induction n as [|n IH]; intros w ls Hfresh; [reflexivity|].
  cbn [passes].
  pose proof (failing_pass_keeps_queue fetch apiBaseUrl token w ls
                Hdown Hfresh) as Hpass.
  rewrite IH; [exact Hpass|]. now rewrite Hpass.
Qed.

(** C3, on the code. The retry count is incremented on the array in
    memory and never written to the storage: when every replay fails,
    any number of passes leaves every stored operation whose stored
    count is below 5 in the queue, with its stored count unchanged, so
    an operation queued by [syncQueue.add] is neither counted nor
    removed. *)
Theorem failed_replays_never_persist_retries {World : Type}
  (fetch : Request -> World -> FetchResult * World)
  (apiBaseUrl token : string) (n : nat) (w : World) (ls : storage)
  (operation : OperationInput) (now : N) :
  (forall request w0, result_ok (fst (fetch request w0)) = false) ->
  syncQueue.getAll ls = [] ->
  syncQueue.getAll
    (snd (passes fetch apiBaseUrl token n w
            (snd (syncQueue.add operation now ls))))
  = [mkOperation (in_method operation) (in_url operation)
       (in_headers operation) (in_body operation) now 0].
Proof.
  intros Hdown Hempty.
  rewrite failing_passes_keep_queue; [| exact Hdown |];
    rewrite getAll_add, Hempty; [reflexivity|].
  repeat constructor.
Qed.

(** Six failed replays of a queued delete: the operation is still
    queued, with a stored retry count of 0. *)
Lemma six_failed_replays_keep_the_delete :
  (forall request w0, result_ok (fst (Scenario.down request w0)) = false) /\
  syncQueue.getAll (∅ : storage) = [] /\
  syncQueue.getAll
    (snd (passes Scenario.down "" "" 6 tt Scenario.one_queued))
  = [Scenario.queued_delete].
Proof.
  split; [reflexivity|]. split; [reflexivity|].
  apply (failed_replays_never_persist_retries Scenario.down "" "" 6 tt ∅
           Scenario.delete_input 1000); reflexivity.
Defined.

End RetryFacts.

(** ** The [App] component *)

Module AppFacts.
Import JSON Model LocalStorage Net OfflineStorage.
Import JSONFacts ModelFacts StorageFacts.

Lemma load_onNoteSaved current ns st ls u :
  notesStorage.load u (snd (App.onNoteSaved current ns st ls))
  = if decide (u = user_id (session_user current)) then ns
    else notesStorage.load u ls.
Proof.
  unfold App.onNoteSaved. cbn [snd].
  destruct (decide (u = user_id (session_user current))) as [->|Hne].
  - apply load_save.
  - now apply load_save_other.
Qed.

Lemma getAll_onNoteSaved current ns st ls :
  syncQueue.getAll (snd (App.onNoteSaved current ns st ls))
  = syncQueue.getAll ls.
Proof. unfold App.onNoteSaved. cbn [snd]. apply getAll_notes_save. Qed.

Lemma session_load_clear ls :
  sessionStorage.load (sessionStorage.clear ls) = None.
Proof.
  unfold sessionStorage.load, sessionStorage.clear, getItem, removeItem.
  now rewrite lookup_delete_eq.
Qed.

(** C8, as the specification states it, fails: the check sets the
    status to [checking] before it fetches, so after a cancelled check
    the status of a backend that was [online] is [checking]. *)
Lemma cancelled_check_changes_status :
  let before := App.mkLive Scenario.online_app false ∅ tt in
  let after := App.checkHealth Scenario.aborting "" before in
  App.serverStatus (App.live_state after)
  <> App.serverStatus (App.live_state before).
Proof. vm_compute. discriminate. Qed.

(** C8, amended. A health check whose request is aborted, at the fetch
    or at the reading of the body of an [ok] response, records no
    offline transition: it leaves the status at [checking], where the
    check has set it at its start, and changes nothing else:
    [isOfflineMode], [wasOffline], the rest of the state and the
    storage are as before the check. *)
Theorem cancelled_check_records_no_offline {World : Type}
  (fetch : Request -> World -> FetchResult * World)
  (apiBaseUrl : string) (lv : App.Live) :
  (let result := fst (fetch (App.health_request apiBaseUrl)
                        (App.live_world lv)) in
   result = Aborted \/
   exists response,
     result = Responded response /\ ok response = true /\
     resp_body response = None) ->
  let after := App.checkHealth fetch apiBaseUrl lv in
  App.live_state after = App.setServerStatus App.checking (App.live_state lv) /\
  App.serverStatus (App.live_state after) = App.checking /\
  App.isOfflineMode (App.live_state after)
    = App.isOfflineMode (App.live_state lv) /\
  App.wasOffline after = App.wasOffline lv /\
  App.live_storage after = App.live_storage lv.
Proof.
  cbv zeta. unfold App.checkHealth.
  destruct (fetch (App.health_request apiBaseUrl) (App.live_world lv))
    as [result w].
  cbn [fst]. intros [-> | (response & -> & Hok & Hbody)].
  - cbn. auto.
  - rewrite Hok, Hbody. cbn. auto.
Qed.

(** A check aborted at its fetch, from a state where the backend was
    [online]. *)
Lemma cancelled_check_on_aborting_network :
  let before := App.mkLive Scenario.online_app false ∅ tt in
  let after := App.checkHealth Scenario.aborting "" before in
  fst (Scenario.aborting (App.health_request "") tt) = Aborted /\
  (App.live_state after
     = App.setServerStatus App.checking (App.live_state before) /\
   App.serverStatus (App.live_state after) = App.checking /\
   App.isOfflineMode (App.live_state after)
     = App.isOfflineMode (App.live_state before) /\
   App.wasOffline after = App.wasOffline before /\
   App.live_storage after = App.live_storage before).
Proof.
  split; [reflexivity|].
  apply (cancelled_check_records_no_offline Scenario.aborting ""
           (App.mkLive Scenario.online_app false ∅ tt)).
  left. reflexivity.
Defined.



End AppFacts.

(** ** The [Notes] component *)

Module NotesFacts.
Import JSON Model LocalStorage Net OfflineStorage.
Import JsFacts JSONFacts ModelFacts StorageFacts AppFacts.

Lemma temporary_id_present noteId :
  JsString.startsWith noteId "temp_" = true ->
  JsString.present (Some noteId) = true.
Proof. destruct noteId; [discriminate|reflexivity]. Qed.

Section page.
Context {World : Type}.
Variable fetch : Request -> World -> FetchResult * World.
Variable current : Session.

Local Abbreviation onNoteSaved := (Some (App.onNoteSaved current)).
Local Abbreviation save_locally :=
  (Notes.save_locally (World := World) onNoteSaved).
Local Abbreviation delete_locally :=
  (Notes.delete_locally (World := World) onNoteSaved).

(** What the local path of [handleDelete] leaves in the storage. *)
Lemma delete_locally_storage props now noteId st parent ls w :
  let pg := delete_locally props now noteId st parent ls w in
  syncQueue.getAll (Notes.page_storage pg)
    = syncQueue.getAll ls
      ++ (if JsString.startsWith noteId "temp_" then []
          else [mkOperation "DELETE" ("/api/notes/" +:+ noteId) [] None
                  now 0]) /\
  notesStorage.load (Notes.userId props) (Notes.page_storage pg)
    = List.filter (fun note => negb (String.eqb (note_id note) noteId))
        (notesStorage.load (Notes.userId props) ls) /\
  Notes.page_world pg = w /\
  Notes.currentNoteId (Notes.page_state pg) = None.
Proof.
  cbv zeta. unfold Notes.delete_locally, Notes.notify.
  set (filtered := List.filter _ _).
  set (ls1 := snd (notesStorage.save (Notes.userId props) filtered ls)).
  set (ls2 := if negb (JsString.startsWith noteId "temp_") then _ else ls1).
  destruct (App.onNoteSaved current filtered parent ls2)
    as [parent' ls3] eqn:Hcall.
  cbn [Notes.page_storage Notes.page_world Notes.page_state
         Notes.currentNoteId].
  assert (Hls3 : ls3 = snd (App.onNoteSaved current filtered parent ls2))
    by now rewrite Hcall.
  assert (Hload2 : notesStorage.load (Notes.userId props) ls2 = filtered).
  { subst ls2. destruct (JsString.startsWith noteId "temp_"); cbn [negb].
    - apply load_save.
    - rewrite load_add. apply load_save. }
  assert (Hqueue2 :
    syncQueue.getAll ls2
    = syncQueue.getAll ls
      ++ (if JsString.startsWith noteId "temp_" then []
          else [mkOperation "DELETE" ("/api/notes/" +:+ noteId) [] None
                  now 0])).
  { subst ls2 ls1. destruct (JsString.startsWith noteId "temp_");
      cbn [negb].
    - now rewrite getAll_notes_save, app_nil_r.
    - now rewrite getAll_add, getAll_notes_save. }
  repeat split.
  - now rewrite Hls3, getAll_onNoteSaved.
  - rewrite Hls3, load_onNoteSaved. now destruct (decide _).
Qed.


(** C10. The delete of a note whose id starts with [temp_] removes
    the note from the cache of the user and leaves the sync queue
    unchanged: no request is sent and no operation is queued. *)
Theorem delete_of_temporary_note_is_not_queued
  (props : Notes.Props) (now : N) (pg : Notes.Page) (noteId : string) :
  JsString.present (Notes.selectedDate props) = true ->
  Notes.currentNoteId (Notes.page_state pg) = Some noteId ->
  JsString.startsWith noteId "temp_" = true ->
  let after := Notes.handleDelete fetch (Some (App.onNoteSaved current))
                 props true now pg in
  syncQueue.getAll (Notes.page_storage after)
    = syncQueue.getAll (Notes.page_storage pg) /\
  notesStorage.load (Notes.userId props) (Notes.page_storage after)
    = List.filter (fun note => negb (String.eqb (note_id note) noteId))
        (notesStorage.load (Notes.userId props) (Notes.page_storage pg)) /\
  Notes.page_world after = Notes.page_world pg /\
  Notes.currentNoteId (Notes.page_state after) = None.
Proof.
  intros Hdate Hid Htemp. cbv zeta. unfold Notes.handleDelete.
  rewrite Hdate, Hid, (temporary_id_present _ Htemp).
  cbn [negb orb default from_option id]. rewrite Htemp. cbn [negb andb].
  rewrite Bool.andb_false_r.
  destruct (delete_locally_storage props now noteId (Notes.page_state pg)
              (Notes.page_parent pg) (Notes.page_storage pg)
              (Notes.page_world pg)) as (Hq & Hload & Hw & Hcur).
  rewrite Htemp, app_nil_r in Hq. auto.
Qed.

(** The delete of a note with another id, in offline mode, queues
    the [DELETE] request. *)
Lemma delete_of_confirmed_note_offline_is_queued
  (props : Notes.Props) (now : N) (pg : Notes.Page) (noteId : string) :
  JsString.present (Notes.selectedDate props) = true ->
  Notes.currentNoteId (Notes.page_state pg) = Some noteId ->
  JsString.present (Some noteId) = true ->
  JsString.startsWith noteId "temp_" = false ->
  Notes.isOfflineMode props = true ->
  let after := Notes.handleDelete fetch (Some (App.onNoteSaved current))
                 props true now pg in
  syncQueue.getAll (Notes.page_storage after)
    = syncQueue.getAll (Notes.page_storage pg)
      ++ [mkOperation "DELETE" ("/api/notes/" +:+ noteId) [] None now 0].
Proof.
  intros Hdate Hid Hpresent Htemp Hoff. cbv zeta.
  unfold Notes.handleDelete.
  rewrite Hdate, Hid, Hpresent, Hoff.
  cbn [negb orb andb default from_option id].
  destruct (delete_locally_storage props now noteId (Notes.page_state pg)
              (Notes.page_parent pg) (Notes.page_storage pg)
              (Notes.page_world pg)) as (Hq & _).
  now rewrite Htemp in Hq.
Qed.


End page.



(** The delete of a cached temporary note: the queue stays empty and
    the cache keeps the other note only. *)
Lemma delete_of_cached_temporary_note :
  let pg := Scenario.viewing_temporary in
  let after :=
    Notes.handleDelete Scenario.down (Some (App.onNoteSaved Scenario.alice))
      Scenario.props true 7 pg in
  (JsString.present (Notes.selectedDate Scenario.props) = true /\
   Notes.currentNoteId (Notes.page_state pg) = Some "temp_1717200000000" /\
   JsString.startsWith "temp_1717200000000" "temp_" = true) /\
  syncQueue.getAll (Notes.page_storage after) = [] /\
  notesStorage.load "u1" (Notes.page_storage after) = [Scenario.other_note].
Proof.
  cbv zeta. split; [repeat split; reflexivity|].
  destruct (delete_of_temporary_note_is_not_queued Scenario.down
              Scenario.alice Scenario.props 7 Scenario.viewing_temporary
              "temp_1717200000000")
    as (Hqueue & Hcache & _); try reflexivity.
  split; [exact Hqueue | exact Hcache].
Defined.

End NotesFacts.

(** ** The note endpoints of the backend *)

Module ServerFacts.
Import Model Server JsFacts.

Lemma map_alter_ext {A B} (h : A -> B) (g g' : A -> A) i (l : list A) :
  (forall x, h (g x) = h (g' x)) ->
  map h (alter g i l) = map h (alter g' i l).
Proof.
  intros Hg. revert i. induction l as [|x l IH]; intros [|i];
    cbn; rewrite ?Hg, ?(IH i); reflexivity.
Qed.

Lemma map_alter_id {A B} (h : A -> B) (g : A -> A) i (l : list A) :
  (forall x, h (g x) = h x) -> map h (alter g i l) = map h l.
Proof.
  intros Hg. revert i. induction l as [|x l IH]; intros [|i];
    cbn; rewrite ?Hg, ?(IH i); reflexivity.
Qed.

Lemma NoDup_map_filter {A B} (h : A -> B) (p : A -> bool) (l : list A) :
  NoDup (map h l) -> NoDup (map h (List.filter p l)).
Proof.
  induction l as [|x l IH]; cbn; [auto|].
  intros Hnd. apply NoDup_cons in Hnd as [Hx Hl].
  destruct (p x); cbn; [|auto].
  apply NoDup_cons. split; [|auto].
  intros Hin. apply Hx.
  apply list_elem_of_In, in_map_iff in Hin as (y & Hy & Hin).
  apply list_elem_of_In, in_map_iff. exists y. split; [exact Hy|].
  now apply filter_In in Hin.
Qed.

End ServerFacts.

(** ** More on the stores of [offlineStorage.js] *)

Module StorageExtras.
Import JSON Model LocalStorage Net OfflineStorage.
Import JSONFacts ModelFacts StorageFacts.

Lemma session_load_frame k v ls :
  k <> sessionStorage.key ->
  sessionStorage.load (setItem k v ls) = sessionStorage.load ls.
Proof.
  intros Hk. unfold sessionStorage.load, getItem, setItem.
  now rewrite lookup_insert_ne.
Qed.

Lemma session_load_removeItem_frame k ls :
  k <> sessionStorage.key ->
  sessionStorage.load (removeItem k ls) = sessionStorage.load ls.
Proof.
  intros Hk. unfold sessionStorage.load, getItem, removeItem.
  now rewrite lookup_delete_ne.
Qed.

Lemma load_removeItem_frame u k ls :
  k <> getUserKey u "notes" ->
  notesStorage.load u (removeItem k ls) = notesStorage.load u ls.
Proof.
  intros Hk. unfold notesStorage.load, getItem, removeItem. cbv zeta.
  now rewrite lookup_delete_ne.
Qed.

Lemma load_frame u k v ls :
  k <> getUserKey u "notes" ->
  notesStorage.load u (setItem k v ls) = notesStorage.load u ls.
Proof.
  intros Hk. unfold notesStorage.load, getItem, setItem. cbv zeta.
  now rewrite lookup_insert_ne.
Qed.

(** X1. Session round trip: [sessionStorage.save(session)] returns
    [true] exactly when the browser accepts the write, and then the
    [sessionStorage.load()] that follows returns the session; when the
    write is refused, [save] returns [false] and the storage is as
    before. *)
Theorem session_round_trip (accepts : Quota.Policy) (session : Session)
  (ls : storage) :
  let after := Quota.sessionStorage.save accepts session ls in
  fst after
  = accepts sessionStorage.key (stringify (session_to_json session)) ls /\
  if fst after then sessionStorage.load (snd after) = Some session
  else snd after = ls.
Proof.
  cbv zeta. unfold Quota.sessionStorage.save.
  destruct (attempt_spec accepts sessionStorage.key
              (stringify (session_to_json session)) ls) as [Hfst Hsnd].
  cbv zeta in *. split; [exact Hfst|].
  rewrite Hfst, Hsnd. destruct (accepts _ _ ls); [|reflexivity].
  unfold sessionStorage.load, getItem, setItem.
  rewrite lookup_insert_eq.
  apply parse_or_stringify. now rewrite session_of_to_json.
Qed.

(** X2. The caches of two users are apart: saving or clearing the notes
    of one user leaves what [notesStorage.load] returns for another
    user unchanged. *)
Theorem notes_cache_is_per_user (u u' : string) (ns : list Note)
  (ls : storage) :
  u <> u' ->
  notesStorage.load u (snd (notesStorage.save u' ns ls))
    = notesStorage.load u ls /\
  notesStorage.load u (notesStorage.clear u' ls) = notesStorage.load u ls.
Proof.
  intros Hne. split; [now apply load_save_other|].
  unfold notesStorage.clear. apply load_removeItem_frame.
  intros H. apply Hne. now apply notes_key_inj.
Qed.

(** The cache of [u1] after a save and a clear for [u2]. *)
Lemma notes_cache_of_u1_and_u2 :
  let ls := snd (notesStorage.save "u1" [Scenario.confirmed_note] ∅) in
  "u1" <> "u2" /\
  (notesStorage.load "u1"
     (snd (notesStorage.save "u2" [Scenario.other_note] ls))
     = notesStorage.load "u1" ls /\
   notesStorage.load "u1" (notesStorage.clear "u2" ls)
     = notesStorage.load "u1" ls).
Proof.
  cbv zeta. split; [discriminate|].
  apply (notes_cache_is_per_user "u1" "u2"). discriminate.
Defined.

(** X3. After its [clear], each store loads as empty ([[]] for the
    notes of the user and for the queue, [null] for the session), and
    the [clear] of one store leaves the two others as they were. *)
Theorem clear_empties_one_store (u v : string) (ls : storage) :
  (notesStorage.load u (notesStorage.clear u ls) = [] /\
   sessionStorage.load (notesStorage.clear u ls) = sessionStorage.load ls /\
   syncQueue.getAll (notesStorage.clear u ls) = syncQueue.getAll ls) /\
  (sessionStorage.load (sessionStorage.clear ls) = None /\
   notesStorage.load v (sessionStorage.clear ls) = notesStorage.load v ls /\
   syncQueue.getAll (sessionStorage.clear ls) = syncQueue.getAll ls) /\
  (syncQueue.getAll (syncQueue.clear ls) = [] /\
   notesStorage.load v (syncQueue.clear ls) = notesStorage.load v ls /\
   sessionStorage.load (syncQueue.clear ls) = sessionStorage.load ls).
Proof.
  repeat split.
  - apply load_clear.
  - apply session_load_removeItem_frame, notes_key_not_session.
  - apply getAll_removeItem_frame, notes_key_not_queue.
  - unfold sessionStorage.load, sessionStorage.clear, getItem, removeItem.
    now rewrite lookup_delete_eq.
  - apply load_removeItem_frame. intros H.
    now apply (notes_key_not_session v).
  - apply getAll_removeItem_frame, session_key_not_queue.
  - apply getAll_clear.
  - apply load_removeItem_frame. intros H.
    now apply (notes_key_not_queue v).
  - apply session_load_removeItem_frame. intros H.
    now apply session_key_not_queue.
Qed.

(** X4. [syncQueue.add], on a stored queue that it reads as it was
    written, returns [true] exactly when the browser accepts the write,
    and then the stored queue is the stored queue of before followed by
    the operation, with the time stamp read and a retry count of 0;
    when the write is refused, [add] returns [false] and the storage is
    as before.  The cached notes and the session are untouched. *)
Theorem add_appends_with_no_retries (accepts : Quota.Policy)
  (operation : OperationInput) (now : N) (u : string) (ls : storage) :
  Quota.syncQueue.well_stored ls ->
  let queued :=
    mkOperation (in_method operation) (in_url operation)
      (in_headers operation) (in_body operation) now 0 in
  let after := Quota.syncQueue.add accepts operation now ls in
  fst after
  = accepts syncQueue.key
      (stringify (queue_to_json (syncQueue.getAll ls ++ [queued]))) ls /\
  (if fst after
   then syncQueue.getAll (snd after) = syncQueue.getAll ls ++ [queued]
   else snd after = ls) /\
  notesStorage.load u (snd after) = notesStorage.load u ls /\
  sessionStorage.load (snd after) = sessionStorage.load ls.
Proof.
  intros _. cbv zeta. unfold Quota.syncQueue.add. cbv zeta.
  set (text := stringify _).
  destruct (attempt_spec accepts syncQueue.key text ls) as [Hfst Hsnd].
  cbv zeta in *. split; [exact Hfst|].
  rewrite Hfst, Hsnd. destruct (accepts _ _ ls).
  - split; [apply getAll_setItem|]. split.
    + apply load_queue_frame.
    + apply session_load_frame. intros H. now apply session_key_not_queue.
  - auto.
Qed.

(** An [add] on an empty storage, accepted and refused. *)
Lemma add_on_empty_storage :
  Quota.syncQueue.well_stored ∅ /\
  syncQueue.getAll
    (snd (Quota.syncQueue.add Quota.unlimited Scenario.delete_input 1000 ∅))
  = [Scenario.queued_delete] /\
  Quota.syncQueue.add Quota.refusing Scenario.delete_input 1000 ∅
  = (false, ∅).
Proof.
  assert (Hstored : Quota.syncQueue.well_stored ∅) by (left; reflexivity).
  split; [exact Hstored|].
  destruct (add_appends_with_no_retries Quota.unlimited
              Scenario.delete_input 1000 "u1" ∅ Hstored)
    as (_ & Haccepted & _).
  destruct (add_appends_with_no_retries Quota.refusing
              Scenario.delete_input 1000 "u1" ∅ Hstored)
    as (Hfst & Hrefused & _).
  split; [exact Haccepted|].
  apply injective_projections; [exact Hfst | exact Hrefused].
Defined.

(** X5. [syncQueue.remove(index)] takes the entry at [index] out of the
    stored queue and keeps the others in their order; with an index
    that is out of range the queue stays as it is.  Removing the last
    index after an [add] gives the queue before the [add]. *)
Theorem remove_takes_one_entry_out (index : nat) (operation : OperationInput)
  (now : N) (ls : storage) :
  let queue := syncQueue.getAll ls in
  syncQueue.getAll (snd (syncQueue.remove index ls))
    = take index queue ++ drop (S index) queue /\
  syncQueue.getAll
    (snd (syncQueue.remove (length queue)
            (snd (syncQueue.add operation now ls))))
    = queue.
Proof.
  cbv zeta. split.
  - rewrite getAll_remove. apply delete_take_drop.
  - rewrite getAll_remove, getAll_add, delete_middle. apply app_nil_r.
Qed.

End StorageExtras.

(** ** More on the passes of [retryFailedRequests] *)

Module RetryExtras.
Import JSON Model LocalStorage Net OfflineStorage.
Import JSONFacts ModelFacts StorageFacts RetryFacts.

Lemma rev_map_filter {A B} (g : A -> B) (f : B -> bool) (l : list A) :
  rev (map g (List.filter (fun x => f (g x)) l))
  = List.filter f (rev (map g l)).
Proof.
  induction l as [|x l IH]; [reflexivity|].
  cbn [List.filter map rev]. rewrite List.filter_app, <- IH. cbn [List.filter].
  destruct (f (g x)); cbn [map rev]; [reflexivity|].
  now rewrite app_nil_r.
Qed.

Lemma filter_ext_Forall {A} (f g : A -> bool) (l : list A) :
  Forall (fun x => f x = g x) l -> List.filter f l = List.filter g l.
Proof.
  induction 1 as [|x l Hx _ IH]; [reflexivity|].
  cbn [List.filter]. now rewrite Hx, IH.
Qed.

Lemma sublist_rev_map_filter {A B} (g : A -> B) (f : A -> bool)
  (l : list A) :
  sublist (rev (map g (List.filter f l))) (rev (map g l)).
Proof.
  induction l as [|x l IH]; [constructor|].
  cbn [List.filter map rev]. destruct (f x); cbn [map rev].
  - now apply sublist_app.
  - now apply sublist_inserts_r.
Qed.

Section pass.
Context {World : Type}.
Variable fetch : Request -> World -> FetchResult * World.
Variables apiBaseUrl token : string.

Lemma replay_frame i st k :
  k <> syncQueue.key ->
  pass_storage (replay fetch apiBaseUrl token i st) !! k
  = pass_storage st !! k.
Proof.
  intros Hk. unfold replay.
  destruct (pass_queue st !! i) as [operation|]; [|reflexivity].
  destruct (fetch _ _) as [result w].
  assert (Hfail :
    snd (still_failing i operation (pass_queue st) (pass_storage st)) !! k
    = pass_storage st !! k).
  { unfold still_failing.
    destruct (5 <? _)%N; cbn [snd]; [|reflexivity].
    unfold syncQueue.remove, setItem. cbn [snd].
    now rewrite lookup_insert_ne. }
  destruct result as [| |response];
    [| |destruct (ok response);
        [unfold syncQueue.remove, setItem; cbn [pass_storage snd];
         now rewrite lookup_insert_ne|]];
    destruct (still_failing _ _ _ _) as [queue' ls']; exact Hfail.
Qed.

Lemma replay_from_frame n st k :
  k <> syncQueue.key ->
  pass_storage (replay_from fetch apiBaseUrl token n st) !! k
  = pass_storage st !! k.
Proof.
  intros Hk. revert st. induction n as [|n IH]; intros st; [reflexivity|].
  cbn [replay_from]. now rewrite IH, replay_frame.
Qed.

Lemma retry_frame w ls k :
  k <> syncQueue.key ->
  pass_storage (retryFailedRequests fetch apiBaseUrl token w ls) !! k
  = ls !! k.
Proof.
  intros Hk. unfold retryFailedRequests.
  destruct (length _ =? 0)%nat; [reflexivity|].
  cbn [pass_storage]. unfold setItem.
  now rewrite lookup_insert_ne, replay_from_frame.
Qed.

End pass.

(** X6. A pass over an empty queue does nothing: it sends no request
    and leaves the storage as it is. *)
Theorem retry_of_empty_queue_does_nothing {World : Type}
  (fetch : Request -> World -> FetchResult * World)
  (apiBaseUrl token : string) (w : World) (ls : storage) :
  syncQueue.getAll ls = [] ->
  let pass := retryFailedRequests fetch apiBaseUrl token w ls in
  pass_log pass = [] /\ pass_storage pass = ls /\ pass_world pass = w.
Proof.
  intros Hempty. cbv zeta. unfold retryFailedRequests.
  rewrite Hempty. cbn. auto.
Qed.

(** A pass on a storage without a queue, on a backend that accepts. *)
Lemma retry_of_no_queue :
  let pass := retryFailedRequests Runs.accepting "" "" tt ∅ in
  syncQueue.getAll (∅ : storage) = [] /\
  (pass_log pass = [] /\ pass_storage pass = ∅ /\ pass_world pass = tt).
Proof.
  cbv zeta. split; [reflexivity|].
  now apply (retry_of_empty_queue_does_nothing Runs.accepting "" "" tt ∅).
Defined.

(** X7. When every replay gets an [ok] response, the pass empties the
    stored queue. *)
Theorem retry_with_all_ok_empties_queue {World : Type}
  (fetch : Request -> World -> FetchResult * World)
  (apiBaseUrl token : string) (w : World) (ls : storage) :
  (forall request w0, result_ok (fst (fetch request w0)) = true) ->
  syncQueue.getAll
    (pass_storage (retryFailedRequests fetch apiBaseUrl token w ls))
  = [].
Proof.
  intros Hok.
  destruct (retry_spec fetch apiBaseUrl token w ls) as (_ & _ & Hby & Hfinal).
  cbv zeta in *. rewrite Hfinal.
  rewrite (filter_ext_Forall kept (fun _ => false)).
  - assert (Hnone : forall l : list Replay,
               List.filter (fun _ => false) l = [])
      by (intros l; induction l; auto).
    now rewrite Hnone.
  - eapply Forall_impl; [exact Hby|].
    intros e [_ [w0 He]]. unfold kept, removed. now rewrite He, Hok.
Qed.

(** The queue with a save and a delete, on a backend that accepts. *)
Lemma retry_on_accepting_backend :
  (forall request w0, result_ok (fst (Runs.accepting request w0)) = true) /\
  syncQueue.getAll
    (pass_storage (retryFailedRequests Runs.accepting "" "" tt
                     Scenario.two_queued))
  = [].
Proof.
  split; [reflexivity|].
  apply (retry_with_all_ok_empties_queue Runs.accepting "" "" tt
           Scenario.two_queued).
  reflexivity.
Defined.

(** X8. A pass writes the key of the queue only: every other key of the
    storage keeps its value, so the cached notes of every user and the
    stored session are as before the pass. *)
Theorem retry_touches_the_queue_only {World : Type}
  (fetch : Request -> World -> FetchResult * World)
  (apiBaseUrl token : string) (w : World) (ls : storage) (u : string) :
  let after := pass_storage (retryFailedRequests fetch apiBaseUrl token w ls) in
  notesStorage.load u after = notesStorage.load u ls /\
  sessionStorage.load after = sessionStorage.load ls.
Proof.
  cbv zeta. split.
  - unfold notesStorage.load, getItem. cbv zeta.
    now rewrite retry_frame by apply notes_key_not_queue.
  - unfold sessionStorage.load, getItem.
    now rewrite retry_frame by apply session_key_not_queue.
Qed.

(** X9. A pass neither adds operations to the stored queue nor changes
    their order: the stored queue after the pass is a sublist of the
    stored queue before it. *)
Theorem retry_leaves_a_sublist {World : Type}
  (fetch : Request -> World -> FetchResult * World)
  (apiBaseUrl token : string) (w : World) (ls : storage) :
  sublist
    (syncQueue.getAll
       (pass_storage (retryFailedRequests fetch apiBaseUrl token w ls)))
    (syncQueue.getAll ls).
Proof.
  destruct (retry_spec fetch apiBaseUrl token w ls) as (_ & Hops & _ & Hfinal).
  cbv zeta in *. rewrite Hfinal.
  rewrite <- (rev_involutive (syncQueue.getAll ls)), <- Hops.
  apply sublist_rev_map_filter.
Qed.

(** X10. When no replay gets an [ok] response, a pass drops exactly the
    operations whose stored retry count is 5 or more, and keeps the
    others with their stored count. *)
Theorem failing_retry_drops_counts_of_five {World : Type}
  (fetch : Request -> World -> FetchResult * World)
  (apiBaseUrl token : string) (w : World) (ls : storage) :
  (forall request w0, result_ok (fst (fetch request w0)) = false) ->
  syncQueue.getAll
    (pass_storage (retryFailedRequests fetch apiBaseUrl token w ls))
  = List.filter (fun operation => (op_retries operation <? 5)%N)
      (syncQueue.getAll ls).
Proof.
  intros Hdown.
  destruct (retry_spec fetch apiBaseUrl token w ls) as (_ & Hops & Hby & Hfinal).
  cbv zeta in *. rewrite Hfinal.
  rewrite (filter_ext_Forall kept
             (fun e => (op_retries (replay_operation e) <? 5)%N)).
  - rewrite (rev_map_filter replay_operation
               (fun operation => (op_retries operation <? 5)%N)).
    now rewrite Hops, rev_involutive.
  - eapply Forall_impl; [exact Hby|].
    intros e [_ [w0 He]]. unfold kept, removed, exhausted, bump.
    cbn [op_retries]. rewrite He, Hdown. cbn [orb].
    destruct (N.ltb_spec 5 (op_retries (replay_operation e) + 1));
      destruct (N.ltb_spec (op_retries (replay_operation e)) 5);
      cbn [negb]; (reflexivity || lia).
Qed.

Lemma failing_retry_on_down_network :
  (forall request w0, result_ok (fst (Scenario.down request w0)) = false) /\
  syncQueue.getAll
    (pass_storage (retryFailedRequests Scenario.down "" "" tt
                     Scenario.two_queued))
  = List.filter (fun operation => (op_retries operation <? 5)%N)
      (syncQueue.getAll Scenario.two_queued).
Proof.
  split; [reflexivity|].
  apply (failing_retry_drops_counts_of_five Scenario.down "" "" tt
           Scenario.two_queued).
  reflexivity.
Defined.

End RetryExtras.

(** ** More on the [Notes] component *)

Module NotesExtras.
Import JSON Model LocalStorage Net OfflineStorage.
Import JsFacts JSONFacts ModelFacts StorageFacts AppFacts RetryFacts.



Section page.
Context {World : Type}.
Variable fetch : Request -> World -> FetchResult * World.
Variable current : Session.

Local Abbreviation onNoteSaved := (Some (App.onNoteSaved current)).

(** The cache of the user and the state of the component after the
    local path of [handleSave]. *)
Lemma save_locally_cache props clock selected noteData st parent ls
  (w : World) :
  let cached := notesStorage.load (Notes.userId props) ls in
  let existingIndex :=
    JsString.findIndex (fun note => String.eqb (note_date note) selected)
      cached in
  let note :=
    mkNote
      (if JsString.present (Notes.currentNoteId st)
       then default "" (Notes.currentNoteId st)
       else "temp_" +:+ JsString.of_N (Notes.clock_id clock))
      (Notes.userId props) selected (JsString.trim (Notes.content st))
      (match existingIndex with
       | Some i =>
           match cached !! i with
           | Some existing => note_createdAt existing
           | None => Notes.clock_createdAt clock
           end
       | None => Notes.clock_createdAt clock
       end)
      (Notes.clock_updatedAt clock) in
  let pg :=
    Notes.save_locally onNoteSaved props clock selected noteData st parent
      ls w in
  notesStorage.load (Notes.userId props) (Notes.page_storage pg)
    = match existingIndex with
      | Some i => <[i := note]> cached
      | None => cached ++ [note]
      end /\
  Notes.page_state pg
    = Notes.mkState (Notes.content st) (Some (note_id note))
        (Notes.isLoading st) false (Notes.isDeleting st) /\
  Notes.page_world pg = w.
Proof.
  cbv zeta. unfold Notes.save_locally, Notes.notify.
  set (cached := notesStorage.load (Notes.userId props) ls).
  set (existingIndex := JsString.findIndex _ cached).
  set (note := mkNote _ _ _ _ _ _).
  set (cached' := match existingIndex with
                  | Some i => <[i:=note]> cached
                  | None => cached ++ [note]
                  end).
  set (ls1 := snd (notesStorage.save (Notes.userId props) cached' ls)).
  set (ls2 := snd (syncQueue.add _ _ ls1)).
  destruct (App.onNoteSaved current cached' parent ls2)
    as [parent' ls3] eqn:Hcall.
  cbn [Notes.page_storage Notes.page_world Notes.page_state].
  assert (Hls3 : ls3 = snd (App.onNoteSaved current cached' parent ls2))
    by now rewrite Hcall.
  repeat split.
  rewrite Hls3, load_onNoteSaved.
  destruct (decide _); [reflexivity|].
  subst ls2 ls1. rewrite load_add. apply load_save.
Qed.

(** [handleSave] in offline mode is its local path. *)
Lemma handleSave_offline props clock (pg : Notes.Page) selected :
  Notes.isOfflineMode props = true ->
  Notes.selectedDate props = Some selected ->
  JsString.truthy selected = true ->
  Notes.handleSave fetch onNoteSaved props clock pg
  = Notes.save_locally onNoteSaved props clock selected
      (mkNoteData selected
         (JsString.trim (Notes.content (Notes.page_state pg))))
      (Notes.page_state pg) (Notes.page_parent pg) (Notes.page_storage pg)
      (Notes.page_world pg).
Proof.
  intros Hoff Hdate Hsel. unfold Notes.handleSave.
  now rewrite Hdate, Hsel, Hoff.
Qed.


(** X12. A save in offline mode keeps at most one note for a date in
    the cache of the user: when the cached notes have distinct dates
    before the save they have distinct dates after it, and the save adds
    at most one note. *)
Theorem offline_save_keeps_one_note_per_date
  (props : Notes.Props) (clock : Notes.Clock) (pg : Notes.Page)
  (selected : string) :
  Notes.isOfflineMode props = true ->
  Notes.selectedDate props = Some selected ->
  JsString.truthy selected = true ->
  NoDup (map note_date
           (notesStorage.load (Notes.userId props) (Notes.page_storage pg))) ->
  let after := Notes.handleSave fetch (Some (App.onNoteSaved current))
                 props clock pg in
  let cached :=
    notesStorage.load (Notes.userId props) (Notes.page_storage after) in
  NoDup (map note_date cached) /\
  length cached
    <= S (length (notesStorage.load (Notes.userId props)
                    (Notes.page_storage pg))).
Proof.
  intros Hoff Hdate Hsel Hnd. cbv zeta.
  rewrite (handleSave_offline _ _ _ _ Hoff Hdate Hsel).
  destruct (save_locally_cache props clock selected
              (mkNoteData selected
                 (JsString.trim (Notes.content (Notes.page_state pg))))
              (Notes.page_state pg) (Notes.page_parent pg)
              (Notes.page_storage pg) (Notes.page_world pg))
    as (Hcache & _).
  cbv zeta in Hcache. rewrite Hcache.
  set (cached := notesStorage.load _ _) in *.
  destruct (JsString.findIndex _ cached) as [i|] eqn:Hfind.
  - destruct (findIndex_lookup _ _ _ Hfind) as (x & Hx & Hpx).
    apply String.eqb_eq in Hpx.
    rewrite length_insert. split; [|lia].
    change (map note_date (<[i:=?y]> cached))
      with (note_date <$> <[i:=y]> cached).
    rewrite list_fmap_insert. cbn [note_date].
    rewrite list_insert_id; [exact Hnd|].
    rewrite list_lookup_fmap, Hx. cbn. now rewrite Hpx.
  - rewrite length_app, map_app. cbn [length map note_date].
    split; [|lia].
    apply NoDup_app. repeat split; [exact Hnd| |apply NoDup_singleton].
    intros d Hd Hd'. apply list_elem_of_singleton in Hd'. subst d.
    apply list_elem_of_In, in_map_iff in Hd as (note & Hdate' & Hin).
    apply findIndex_None in Hfind. rewrite List.Forall_forall in Hfind.
    specialize (Hfind note Hin). cbn beta in Hfind.
    rewrite Hdate', String.eqb_refl in Hfind. discriminate.
Qed.



(** X15. [handleDelete] changes nothing and sends nothing unless a date
    is selected, a note is current and the user confirms. *)
Theorem delete_needs_date_note_and_confirmation
  (props : Notes.Props) (confirmed : bool) (now : N) (pg : Notes.Page) :
  JsString.present (Notes.selectedDate props) = false \/
  JsString.present (Notes.currentNoteId (Notes.page_state pg)) = false \/
  confirmed = false ->
  Notes.handleDelete fetch (Some (App.onNoteSaved current)) props confirmed
    now pg
  = pg.
Proof.
  unfold Notes.handleDelete. intros [H | [H | H]]; rewrite H;
    [reflexivity | now rewrite Bool.orb_true_r |].
  now destruct (negb _ || negb _).
Qed.




End page.


Lemma offline_save_over_temporary_note :
  let pg := Scenario.viewing_temporary in
  let after :=
    Notes.handleSave Scenario.down (Some (App.onNoteSaved Scenario.alice))
      Runs.offline_props Scenario.clock pg in
  let cached := notesStorage.load "u1" (Notes.page_storage after) in
  (Notes.isOfflineMode Runs.offline_props = true /\
   Notes.selectedDate Runs.offline_props = Some "2024-06-01" /\
   JsString.truthy "2024-06-01" = true /\
   NoDup (map note_date (notesStorage.load "u1" (Notes.page_storage pg)))) /\
  NoDup (map note_date cached) /\
  length cached <= 3.
Proof.
  assert (Hnd : NoDup (map note_date
                    (notesStorage.load "u1"
                       (Notes.page_storage Scenario.viewing_temporary))))
    by (apply (bool_decide_unpack _); vm_compute; exact I).
  cbv zeta. split; [repeat split; try reflexivity; exact Hnd|].
  apply (offline_save_keeps_one_note_per_date Scenario.down Scenario.alice
           Runs.offline_props Scenario.clock Scenario.viewing_temporary
           "2024-06-01"); try reflexivity.
  exact Hnd.
Defined.



Lemma unconfirmed_delete_of_confirmed_note :
  (JsString.present (Notes.selectedDate Scenario.props) = false \/
   JsString.present
     (Notes.currentNoteId (Notes.page_state Scenario.viewing_confirmed))
     = false \/
   false = false) /\
  Notes.handleDelete Runs.emptied (Some (App.onNoteSaved Scenario.alice))
    Scenario.props false 7 Scenario.viewing_confirmed
  = Scenario.viewing_confirmed.
Proof.
  split; [right; right; reflexivity|].
  apply (delete_needs_date_note_and_confirmation Runs.emptied Scenario.alice
           Scenario.props false 7 Scenario.viewing_confirmed).
  right; right; reflexivity.
Defined.




End NotesExtras.

(** ** Further properties of [App]: the health check, the session and
    the loading of the notes *)

Module AppExtras.
Import JSON Model LocalStorage Net OfflineStorage.
Import JsFacts JSONFacts ModelFacts StorageFacts AppFacts RetryFacts.
Import StorageExtras.



Section effects.
Context {World : Type}.
Variable fetch : Request -> World -> FetchResult * World.


Lemma starts_no_value_parse text :
  AppEffects.starts_no_value text = true -> parse text = None.
Proof.
  unfold AppEffects.starts_no_value, parse.
  cbn [parse_value]. destruct (skip_ws (chars text)) as [|c r];
    [reflexivity|].
  intros Hstart. apply Bool.negb_true_iff, Bool.orb_false_iff in Hstart.
  destruct Hstart as [Hstart _]. unfold token_start in Hstart.
  repeat (apply Bool.orb_false_iff in Hstart;
          destruct Hstart as [Hstart ?Hc]).
  now rewrite Hc4, Hc3, Hc2, Hc1, Hc0, Hc, Hstart.
Qed.

(** X19. A health check that fails (the fetch is rejected with an error
    other than [AbortError], the status is not in 200-299, or the body
    is empty or starts with a character that starts no JSON value)
    records the outage: the status is [offline], the offline mode and
    [wasOffline] are set; the storage, the session and the notes are as
    before. *)
Theorem failed_check_records_the_outage
  (apiBaseUrl : string) (lv : App.Live) :
  (let result := fst (fetch (App.health_request apiBaseUrl)
                        (App.live_world lv)) in
   result = NetworkError \/
   exists response,
     result = Responded response /\
     (ok response = false \/
      exists text,
        resp_body response = Some text /\
        AppEffects.starts_no_value text = true)) ->
  let after := App.checkHealth fetch apiBaseUrl lv in
  App.serverStatus (App.live_state after) = App.offline /\
  App.isOfflineMode (App.live_state after) = true /\
  App.wasOffline after = true /\
  App.live_storage after = App.live_storage lv /\
  App.session (App.live_state after) = App.session (App.live_state lv) /\
  App.notes (App.live_state after) = App.notes (App.live_state lv).
Proof.
  cbv zeta. unfold App.checkHealth.
  destruct (fetch (App.health_request apiBaseUrl) (App.live_world lv))
    as [result w].
  cbn [fst].
  intros [-> | (response & -> & [Hok | (text & Hbody & Hstart)])].
  - cbn. auto 10.
  - rewrite Hok. cbn. auto 10.
  - destruct (ok response); cbn [negb]; [|cbn; auto 10].
    rewrite Hbody, (starts_no_value_parse _ Hstart). cbn. auto 10.
Qed.

(** X20. The replay is triggered by the end of an outage only: a
    healthy check that follows no failed check, or that runs without a
    session token, sends the health request and nothing else; it leaves
    the storage and the notes as they are and sets the status to
    [online]. *)
Theorem healthy_check_without_outage_replays_nothing
  (apiBaseUrl : string) (lv : App.Live) (response : Response)
  (text : string) (v : json) (w : World) :
  fetch (App.health_request apiBaseUrl) (App.live_world lv)
    = (Responded response, w) ->
  ok response = true ->
  resp_body response = Some text ->
  parse text = Some v ->
  App.wasOffline lv = false \/
  App.session_token_of (App.session (App.live_state lv)) = None ->
  let after := App.checkHealth fetch apiBaseUrl lv in
  App.live_world after = w /\
  App.live_storage after = App.live_storage lv /\
  App.notes (App.live_state after) = App.notes (App.live_state lv) /\
  App.serverStatus (App.live_state after) = App.online /\
  App.isOfflineMode (App.live_state after) = false /\
  App.wasOffline after = false.
Proof.
  intros Hfetch Hok Hbody Hparse Hquiet. cbv zeta. unfold App.checkHealth.
  rewrite Hfetch, Hok, Hbody, Hparse. cbn [negb].
  destruct Hquiet as [-> | Hnone].
  - cbn. auto 10.
  - cbn [App.session App.setServerStatus]. rewrite Hnone.
    destruct (App.wasOffline lv); cbn; auto 10.
Qed.



(** X23. The loading of the notes of a session when the backend cannot
    be reached or refuses: the storage is left as it is; a cache of the
    user that is not empty becomes the notes of [App], in offline mode;
    with an empty cache the notes and the mode of [App] stay what they
    were. *)
Theorem unloaded_notes_come_from_the_cache
  (apiBaseUrl : string) (st : App.State) (ls : storage) (w : World)
  (current : Session) :
  App.session_token_of (App.session st) = Some current ->
  result_ok
    (fst (fetch (App.notes_request apiBaseUrl (session_token current)) w))
    = false ->
  let '(st', ls', _) := AppEffects.loadNotes fetch apiBaseUrl st ls w in
  let cachedNotes := notesStorage.load (user_id (session_user current)) ls in
  ls' = ls /\
  (cachedNotes <> [] ->
   App.notes st' = cachedNotes /\ App.isOfflineMode st' = true) /\
  (cachedNotes = [] -> st' = st).
Proof.
  intros Hcurrent Hfail. unfold AppEffects.loadNotes.
  rewrite Hcurrent.
  destruct (fetch _ w) as [result w'] eqn:Hfetch. cbn [fst] in Hfail.
  assert (Hshow :
    let cachedNotes :=
      notesStorage.load (user_id (session_user current)) ls in
    let st' :=
      AppEffects.show_cached (user_id (session_user current)) st ls in
    (cachedNotes <> [] ->
     App.notes st' = cachedNotes /\ App.isOfflineMode st' = true) /\
    (cachedNotes = [] -> st' = st)).
  { cbv zeta. unfold AppEffects.show_cached. cbv zeta.
    destruct (notesStorage.load _ ls) as [|note cached]; cbn.
    - split; [congruence | reflexivity].
    - split; [auto | discriminate]. }
  destruct result as [| |response]; cbn in Hfail |- *;
    [now split | now split |].
  rewrite Hfail. now split.
Qed.

End effects.

Lemma failed_check_on_down_network :
  let lv :=
    App.mkLive Scenario.online_app false Scenario.logged_in_storage tt in
  let after := App.checkHealth Scenario.down "" lv in
  let page := App.checkHealth Cases.html_page "" lv in
  (fst (Scenario.down (App.health_request "") (App.live_world lv))
     = NetworkError /\
   fst (Cases.html_page (App.health_request "") (App.live_world lv))
     = Responded (mkResponse 200 (Some "<html></html>")) /\
   AppEffects.starts_no_value "<html></html>" = true) /\
  (App.serverStatus (App.live_state after) = App.offline /\
   App.isOfflineMode (App.live_state after) = true /\
   App.wasOffline after = true) /\
  (App.serverStatus (App.live_state page) = App.offline /\
   App.wasOffline page = true).
Proof.
  cbv zeta. split; [repeat split; reflexivity|].
  destruct (failed_check_records_the_outage Scenario.down ""
              (App.mkLive Scenario.online_app false
                 Scenario.logged_in_storage tt))
    as (Hstatus & Hmode & Hwas & _).
  { left. reflexivity. }
  destruct (failed_check_records_the_outage Cases.html_page ""
              (App.mkLive Scenario.online_app false
                 Scenario.logged_in_storage tt))
    as (Hstatus' & _ & Hwas' & _).
  { right. exists (mkResponse 200 (Some "<html></html>")).
    split; [reflexivity|]. right. exists "<html></html>".
    split; reflexivity. }
  split; [split; [exact Hstatus | split; [exact Hmode | exact Hwas]]|].
  split; [exact Hstatus' | exact Hwas'].
Defined.

Lemma healthy_check_of_online_backend :
  let lv :=
    App.mkLive Scenario.online_app false Scenario.logged_in_storage tt in
  let response :=
    mkResponse 200
      (Some (stringify (notes_to_json [Scenario.confirmed_note]))) in
  let after := App.checkHealth Runs.accepting "" lv in
  (Runs.accepting (App.health_request "") (App.live_world lv)
     = (Responded response, tt) /\
   ok response = true /\
   parse (stringify (notes_to_json [Scenario.confirmed_note]))
     = Some (notes_to_json [Scenario.confirmed_note]) /\
   App.wasOffline lv = false) /\
  App.live_storage after = Scenario.logged_in_storage /\
  App.serverStatus (App.live_state after) = App.online.
Proof.
  cbv zeta. split; [repeat split; vm_compute; reflexivity|].
  destruct (healthy_check_without_outage_replays_nothing Runs.accepting ""
              (App.mkLive Scenario.online_app false
                 Scenario.logged_in_storage tt)
              (mkResponse 200
                 (Some (stringify (notes_to_json [Scenario.confirmed_note]))))
              (stringify (notes_to_json [Scenario.confirmed_note]))
              (notes_to_json [Scenario.confirmed_note]) tt)
    as (_ & Hstorage & _ & Hstatus & _);
    try (left; reflexivity); try (vm_compute; reflexivity).
  split; [exact Hstorage | exact Hstatus].
Defined.



Lemma unloaded_notes_of_alice :
  let ls := snd (notesStorage.save "u1" [Scenario.other_note] ∅) in
  (App.session_token_of (App.session Scenario.online_app)
     = Some Scenario.alice /\
   result_ok (fst (Scenario.down (App.notes_request "" "token") tt))
     = false) /\
  let '(st', ls', _) :=
    AppEffects.loadNotes Scenario.down "" Scenario.online_app ls tt in
  let cachedNotes := notesStorage.load "u1" ls in
  ls' = ls /\
  (cachedNotes <> [] ->
   App.notes st' = cachedNotes /\ App.isOfflineMode st' = true) /\
  (cachedNotes = [] -> st' = Scenario.online_app).
Proof.
  cbv zeta. split; [repeat split; vm_compute; reflexivity|].
  apply (unloaded_notes_come_from_the_cache Scenario.down ""
           Scenario.online_app
           (snd (notesStorage.save "u1" [Scenario.other_note] ∅)) tt
           Scenario.alice);
    vm_compute; reflexivity.
Defined.


(** X25. A logout is not undone by a reload of the page: after the
    log-out handler the effect run on mount finds no session and leaves
    the fresh component as it is. *)
Theorem logout_survives_reload (st fresh : App.State) (ls : storage) :
  AppEffects.restoreSession fresh (snd (App.logout st ls)) = fresh.
Proof.
  unfold AppEffects.restoreSession, App.logout. cbv zeta. cbn [snd].
  unfold notesStorage.clear. cbv zeta.
  rewrite session_load_removeItem_frame by apply notes_key_not_session.
  now rewrite session_load_clear.
Qed.

End AppExtras.

(** ** Further properties of the note endpoints *)

Module ServerExtras.
Import Model Server ServerCalls JsFacts ServerFacts.

Lemma dropWhile_idem p l :
  JsString.dropWhile p (JsString.dropWhile p l) = JsString.dropWhile p l.
Proof.
  induction l as [|c r IH]; cbn; [reflexivity|].
  destruct (p c) eqn:Hc; [exact IH|]. cbn. now rewrite Hc.
Qed.

Lemma dropWhile_app_last p l c :
  p c = false ->
  JsString.dropWhile p (l ++ [c]) = JsString.dropWhile p l ++ [c].
Proof.
  intros Hc. induction l as [|d r IH]; cbn; [now rewrite Hc|].
  now destruct (p d).
Qed.

Lemma dropWhile_end_cons p c l :
  p c = false ->
  rev (JsString.dropWhile p (rev (c :: l)))
  = c :: rev (JsString.dropWhile p (rev l)).
Proof.
  intros Hc. cbn [rev]. rewrite dropWhile_app_last by exact Hc.
  now rewrite rev_unit.
Qed.

Lemma trim_trim text : JsString.trim (JsString.trim text) = JsString.trim text.
Proof.
  unfold JsString.trim. rewrite list_ascii_of_string_of_list_ascii.
  f_equal.
  destruct (JsString.dropWhile Chars.is_trim_ws (list_ascii_of_string text))
    as [|c l] eqn:Hdrop; [reflexivity|].
  assert (Hc : Chars.is_trim_ws c = false).
  { pose proof (dropWhile_idem Chars.is_trim_ws
                  (list_ascii_of_string text)) as Hidem.
    rewrite Hdrop in Hidem. cbn in Hidem.
    destruct (Chars.is_trim_ws c); [|reflexivity].
    exfalso. apply (f_equal (@length _)) in Hidem. cbn in Hidem.
    clear Hdrop. revert Hidem.
    assert (Hle : forall m, length (JsString.dropWhile Chars.is_trim_ws m)
                            <= length m).
    { induction m as [|d m IH]; cbn; [lia|].
      destruct (Chars.is_trim_ws d); cbn; lia. }
    specialize (Hle l). lia. }
  rewrite (dropWhile_end_cons _ _ _ Hc). cbn [JsString.dropWhile].
  rewrite Hc. rewrite (dropWhile_end_cons _ _ _ Hc). f_equal.
  now rewrite rev_involutive, dropWhile_idem.
Qed.

Lemma filter_alter_out {A} (p : A -> bool) (g : A -> A) i (l : list A) x :
  l !! i = Some x -> p x = false -> p (g x) = false ->
  List.filter p (alter g i l) = List.filter p l.
Proof.
  revert i. induction l as [|y l IH]; intros [|i]; cbn; try discriminate.
  - intros [= ->] Hx Hgx. now rewrite Hx, Hgx.
  - intros Hi Hx Hgx. now rewrite (IH i Hi Hx Hgx).
Qed.

Lemma filter_filter_weaker {A} (p q : A -> bool) (l : list A) :
  (forall x, p x = true -> q x = true) ->
  List.filter p (List.filter q l) = List.filter p l.
Proof.
  intros Hpq. induction l as [|x l IH]; cbn; [reflexivity|].
  destruct (q x) eqn:Hq; cbn; [now rewrite IH|].
  destruct (p x) eqn:Hp; [|exact IH].
  rewrite (Hpq x Hp) in Hq. discriminate.
Qed.

Lemma filter_length_eq {A} (q : A -> bool) (l : list A) :
  length (List.filter q l) = length l -> List.filter q l = l.
Proof.
  induction l as [|x l IH]; cbn; [reflexivity|].
  destruct (q x); cbn.
  - intros [= Hlen]. now rewrite IH.
  - intros Hlen. pose proof (List.filter_length_le q l). lia.
Qed.

Lemma find_filter_alter {A} (p q : A -> bool) (g : A -> A) i (l : list A) :
  JsString.findIndex (fun x => p x && q x) l = Some i ->
  (forall x, p (g x) = p x) -> (forall x, q (g x) = q x) ->
  exists x, l !! i = Some x /\
            List.find q (List.filter p (alter g i l)) = Some (g x).
Proof.
  intros Hfind Hp Hq. revert i Hfind.
  induction l as [|y l IH]; intros i; [discriminate|].
  cbn [JsString.findIndex]. destruct (p y && q y) eqn:Hy.
  - intros [= <-]. exists y. split; [reflexivity|].
    apply andb_prop in Hy as [Hpy Hqy]. cbn. rewrite Hp, Hpy. cbn.
    now rewrite Hq, Hqy.
  - destruct (JsString.findIndex _ l) as [j|]; [|discriminate].
    intros [= <-]. destruct (IH j eq_refl) as (x & Hx & Hfound).
    exists x. split; [exact Hx|]. cbn.
    destruct (p y) eqn:Hpy; [|exact Hfound].
    cbn in Hy |- *. now rewrite Hy.
Qed.

Lemma find_filter_app_last {A} (p q : A -> bool) (l : list A) n :
  JsString.findIndex (fun x => p x && q x) l = None ->
  p n = true -> q n = true ->
  List.find q (List.filter p (l ++ [n])) = Some n.
Proof.
  intros Hnone Hp Hq. induction l as [|y l IH]; cbn in *.
  - now rewrite Hp; cbn; rewrite Hq.
  - destruct (p y && q y) eqn:Hy; [discriminate|].
    destruct (JsString.findIndex _ l); [discriminate|].
    destruct (p y) eqn:Hpy; [|now apply IH].
    cbn in Hy |- *. rewrite Hy. now apply IH.
Qed.

Lemma handle_other_user call notes sub :
  caller call <> sub ->
  userNotes sub (snd (handle call notes)) = userNotes sub notes.
Proof.
  intros Hother. unfold userNotes.
  destruct call as [owner date content fresh | owner id content now
                   | owner id]; cbn [caller handle] in *.
  - unfold post_notes.
    destruct (negb (JsString.present date) || blank content);
      [reflexivity|].
    cbn [snd]. destruct (JsString.findIndex _ notes) as [i|] eqn:Hfind.
    + destruct (findIndex_lookup _ _ _ Hfind) as (x & Hx & Hpx).
      apply andb_prop in Hpx as [Howner _]. apply String.eqb_eq in Howner.
      apply (filter_alter_out _ _ _ _ x Hx); cbn [rewrite_note note_userId];
        rewrite Howner; now apply String.eqb_neq.
    + rewrite List.filter_app. cbn.
      apply String.eqb_neq in Hother. rewrite Hother. apply app_nil_r.
  - unfold put_note. destruct (blank content); [reflexivity|].
    destruct (JsString.findIndex _ notes) as [i|] eqn:Hfind; [|reflexivity].
    cbn [snd]. destruct (findIndex_lookup _ _ _ Hfind) as (x & Hx & Hpx).
    apply andb_prop in Hpx as [_ Howner]. apply String.eqb_eq in Howner.
    apply (filter_alter_out _ _ _ _ x Hx); cbn [rewrite_note note_userId];
      rewrite Howner; now apply String.eqb_neq.
  - unfold delete_note. cbv zeta.
    destruct (length notes =? length _)%nat; [reflexivity|]. cbn [snd].
    apply filter_filter_weaker. intros x Hx. apply String.eqb_eq in Hx.
    apply Bool.negb_true_iff, Bool.andb_false_iff. right.
    rewrite Hx. apply String.eqb_neq. congruence.
Qed.

Lemma post_notes_found sub date content fresh notes :
  JsString.truthy date = true ->
  blank (Some content) = false ->
  let result := post_notes sub (Some date) (Some content) fresh notes in
  reply_status (fst result) = 201%N /\
  reply_notes (fst result) = Some (userNotes sub (snd result)) /\
  exists note,
    note_of_date date (userNotes sub (snd result)) = Some note /\
    note_userId note = sub /\
    note_content note = JsString.trim content.
Proof.
  intros Hdate Hcontent. cbv zeta. unfold post_notes.
  cbn [JsString.present]. rewrite Hdate, Hcontent.
  cbn [negb orb fst snd reply_status reply_notes default from_option id].
  split; [reflexivity|]. split; [reflexivity|].
  unfold note_of_date, userNotes.
  destruct (JsString.findIndex _ notes) as [i|] eqn:Hfind.
  - destruct (find_filter_alter
                (fun note => String.eqb (note_userId note) sub)
                (fun note => String.eqb (note_date note) date)
                (rewrite_note content (fresh_updatedAt fresh)) i notes Hfind)
      as (x & Hx & Hfound); [reflexivity | reflexivity |].
    exists (rewrite_note content (fresh_updatedAt fresh) x).
    split; [exact Hfound|]. split; [|reflexivity].
    destruct (findIndex_lookup _ _ _ Hfind) as (x' & Hx' & Hpx).
    rewrite Hx in Hx'. injection Hx' as <-.
    apply andb_prop in Hpx as [Howner _]. now apply String.eqb_eq in Howner.
  - eexists. split.
    + apply (find_filter_app_last
               (fun note => String.eqb (note_userId note) sub)
               (fun note => String.eqb (note_date note) date)
               notes _ Hfind); apply String.eqb_refl.
    + split; reflexivity.
Qed.

(** X26. The notes of a user are out of the reach of the others: no
    sequence of [POST], [PUT] and [DELETE] requests of other users
    changes what [GET /api/notes] answers to the user. *)
Theorem requests_of_others_leave_the_notes_of_a_user
  (sub : string) (calls : list Call) (notes : list Note) :
  Forall (fun call => caller call <> sub) calls ->
  get_notes sub (run calls notes) = get_notes sub notes.
Proof.
  intros Hothers. unfold get_notes. do 2 f_equal.
  revert notes. induction Hothers as [|call calls Hcall _ IH]; intros notes;
    [reflexivity|].
  unfold run in *. cbn [fold_left]. rewrite IH.
  now apply handle_other_user.
Qed.

(** Requests of [u2], among them the deletion of the id of a note of
    [u1], leave the notes of [u1]. *)
Lemma requests_of_u2_leave_the_notes_of_u1 :
  let calls :=
    [Post "u2" (Some "2024-06-01") (Some "water plants")
       Scenario.first_handling;
     Delete "u2" "n1"] in
  let notes := [Scenario.confirmed_note; Scenario.other_note] in
  Forall (fun call => caller call <> "u1") calls /\
  get_notes "u1" (run calls notes) = get_notes "u1" notes.
Proof.
  assert (Hothers :
    Forall (fun call => caller call <> "u1")
      [Post "u2" (Some "2024-06-01") (Some "water plants")
         Scenario.first_handling;
       Delete "u2" "n1"]).
  { apply List.Forall_cons; [discriminate|].
    apply List.Forall_cons; [discriminate|]. apply List.Forall_nil. }
  cbv zeta. split; [exact Hothers|].
  apply (requests_of_others_leave_the_notes_of_a_user "u1" _
           [Scenario.confirmed_note; Scenario.other_note] Hothers).
Defined.

(** X27. After [DELETE /api/notes/:id], whatever it answered, no note
    with that id belongs to the caller, and the same request sent again
    is answered with 404 and changes nothing. *)
Theorem repeated_delete_is_not_found (sub id : string) (notes : list Note) :
  let after := snd (delete_note sub id notes) in
  Forall (fun note =>
            String.eqb (note_id note) id && String.eqb (note_userId note) sub
            = false)
    after /\
  delete_note sub id after = (mkReply 404 None, after).
Proof.
  cbv zeta. unfold delete_note. cbv zeta.
  set (q := fun note : Note =>
              negb (String.eqb (note_id note) id
                    && String.eqb (note_userId note) sub)).
  assert (Hq : forall l, Forall (fun note => q note = true) l ->
               Forall (fun note =>
                         String.eqb (note_id note) id
                         && String.eqb (note_userId note) sub = false) l).
  { intros l Hl. eapply Forall_impl; [exact Hl|]. intros note Hnote.
    now apply Bool.negb_true_iff in Hnote. }
  destruct (length notes =? length (List.filter q notes))%nat eqn:Hlen;
    cbn [snd].
  - rewrite Hlen. split; [|reflexivity].
    apply Nat.eqb_eq, eq_sym, filter_length_eq in Hlen.
    apply Hq. rewrite <- Hlen. apply List.Forall_forall.
    intros note Hin. now apply filter_In in Hin.
  - split.
    + apply Hq, List.Forall_forall. intros note Hin.
      now apply filter_In in Hin.
    + rewrite (filter_filter_weaker q q) by auto.
      now rewrite Nat.eqb_refl.
Qed.



(** X29. What the client trims the backend stores as it is: the
    content of a save request is trimmed by [handleSave], and when that
    content is not empty the [POST /api/notes] that receives it, sent at
    once or replayed from the queue, accepts it and stores it
    unchanged, so that the stored note has the content of the note that
    an offline save has put in the cache. *)
Theorem trimmed_content_is_stored_unchanged
  (sub date text : string) (fresh : Fresh) (notes : list Note) :
  JsString.truthy date = true ->
  JsString.truthy (JsString.trim text) = true ->
  let data := mkNoteData date (JsString.trim text) in
  let result :=
    post_notes sub (Some (data_date data)) (Some (data_content data)) fresh
      notes in
  reply_status (fst result) = 201%N /\
  exists note,
    note_of_date date (userNotes sub (snd result)) = Some note /\
    note_content note = data_content data.
Proof.
  intros Hdate Htext. cbv zeta. cbn [data_date data_content].
  assert (Hcontent : blank (Some (JsString.trim text)) = false).
  { unfold blank. now rewrite trim_trim, Htext. }
  destruct (post_notes_found sub date (JsString.trim text) fresh notes
              Hdate Hcontent)
    as (Hstatus & _ & note & Hfound & _ & Hnote).
  cbv zeta in *. split; [exact Hstatus|].
  exists note. split; [exact Hfound|]. now rewrite Hnote, trim_trim.
Qed.

(** The save of a first note, typed with spaces around it. *)
Lemma trimmed_content_of_first_note :
  let result :=
    post_notes "u1" (Some "2024-06-01") (Some (JsString.trim " buy milk "))
      Scenario.first_handling [] in
  (JsString.truthy "2024-06-01" = true /\
   JsString.truthy (JsString.trim " buy milk ") = true) /\
  reply_status (fst result) = 201%N /\
  exists note,
    note_of_date "2024-06-01" (userNotes "u1" (snd result)) = Some note /\
    note_content note = JsString.trim " buy milk ".
Proof.
  cbv zeta. split; [split; reflexivity|].
  apply (trimmed_content_is_stored_unchanged "u1" "2024-06-01" " buy milk "
           Scenario.first_handling [] eq_refl eq_refl).
Defined.

(** X30. No save rewrites the identity of a stored note: after
    [POST /api/notes] the ids, owners, dates and times of creation of
    the stored notes are those of before, in the same order, followed by
    those of at most one new note; after [PUT /api/notes/:id] they are
    those of before. *)
Theorem saves_keep_the_identity_of_notes
  (sub id : string) (date content : option string) (fresh : Fresh)
  (now : string) (notes : list Note) :
  (exists added,
     map identity_of (snd (post_notes sub date content fresh notes))
     = map identity_of notes ++ added /\
     length added <= 1) /\
  map identity_of (snd (put_note sub id content now notes))
  = map identity_of notes.
Proof.
  split.
  - unfold post_notes.
    destruct (negb (JsString.present date) || blank content).
    + exists []. cbn [snd length]. rewrite app_nil_r. auto.
    + cbn [snd]. destruct (JsString.findIndex _ notes) as [i|].
      * exists []. rewrite map_alter_id by reflexivity.
        rewrite app_nil_r. cbn. auto.
      * eexists. rewrite map_app. split; [reflexivity|]. cbn. lia.
  - unfold put_note. destruct (blank content); [reflexivity|].
    destruct (JsString.findIndex _ notes) as [i|]; [|reflexivity].
    cbn [snd]. now rewrite map_alter_id.
Qed.

End ServerExtras.

(** ** Passes of [retryFailedRequests] that overlap *)

Module OverlapFacts.
Import JSON Model LocalStorage Net OfflineStorage Overlap.
Import JSONFacts ModelFacts StorageFacts.

Section overlap.
Context {World : Type}.
Variable fetch : Request -> World -> FetchResult * World.
Variables apiBaseUrl token : string.

Local Abbreviation replay := (replay fetch apiBaseUrl token).
Local Abbreviation replay_from := (replay_from fetch apiBaseUrl token).
Local Abbreviation run := (Overlap.run fetch apiBaseUrl token).
Local Abbreviation written_back :=
  (fun ls : storage =>
     setItem syncQueue.key
       (stringify (queue_to_json (syncQueue.getAll ls))) ls).

(** The log of a pass is a record of what it did: it does not bear on
    the network, the storage or the array of the pass. *)
Lemma replay_any_log i w ls queue log :
  let st := replay i (mkPass w ls queue log) in
  let st0 := replay i (mkPass w ls queue []) in
  pass_world st = pass_world st0 /\
  pass_storage st = pass_storage st0 /\
  pass_queue st = pass_queue st0.
Proof.
  cbv zeta. unfold OfflineStorage.replay. cbn [pass_queue pass_world
    pass_storage pass_log].
  destruct (queue !! i) as [operation|]; [|now cbn].
  destruct (fetch _ w) as [result w'].
  unfold still_failing.
  destruct result as [| |response]; [| |destruct (ok response)];
    try destruct (5 <? _)%N; now cbn.
Qed.

(** The last turn of a pass, on an [ok] response: index 0 is removed
    from the stored queue, as the storage holds it at that time, and
    the stored queue is written back. *)
Lemma turn_ok_last queue operation w ls :
  queue !! 0%nat = Some operation ->
  result_ok
    (fst (fetch (operation_request apiBaseUrl token operation) w)) = true ->
  turn fetch apiBaseUrl token (Suspended queue 0) w ls
  = (Returned,
     snd (fetch (operation_request apiBaseUrl token operation) w),
     written_back (snd (syncQueue.remove 0 ls))).
Proof.
  intros Hi Hok. unfold turn, OfflineStorage.replay.
  cbn [pass_queue pass_world pass_storage pass_log]. rewrite Hi.
  destruct (fetch _ w) as [result w']. cbn [fst snd] in *.
  destruct result as [| |response]; try discriminate.
  cbn [result_ok] in Hok. rewrite Hok. reflexivity.
Qed.

(** A turn before the last one, on a response that is not [ok], for an
    operation whose retry count is below 5: the storage stays as it
    is and the count is incremented in the array of the pass. *)
Lemma turn_failing_next queue i operation w ls :
  queue !! S i = Some operation ->
  result_ok
    (fst (fetch (operation_request apiBaseUrl token operation) w)) = false ->
  (op_retries operation < 5)%N ->
  turn fetch apiBaseUrl token (Suspended queue (S i)) w ls
  = (Suspended (<[S i := bump operation]> queue) i,
     snd (fetch (operation_request apiBaseUrl token operation) w),
     ls).
Proof.
  intros Hi Hfail Hretries. unfold turn, OfflineStorage.replay.
  cbn [pass_queue pass_world pass_storage pass_log]. rewrite Hi.
  destruct (fetch _ w) as [result w']. cbn [fst snd] in *.
  unfold still_failing.
  assert (Hkeep : (5 <? op_retries (bump operation))%N = false).
  { apply N.ltb_ge. cbn [bump op_retries]. lia. }
  rewrite Hkeep.
  destruct result as [| |response]; cbn [result_ok] in Hfail;
    try rewrite Hfail; reflexivity.
Qed.

(** The turns of a suspended pass, taken with nothing in between, are
    the rest of the loop of [retryFailedRequests] and its last
    write. *)
Lemma suspended_alone i queue log other w ls :
  let d := run (repeat First (S i)) (mkDuo (Suspended queue i) other w ls) in
  let st := replay_from (S i) (mkPass w ls queue log) in
  first d = Returned /\ second d = other /\
  duo_world d = pass_world st /\
  duo_storage d = written_back (pass_storage st).
Proof.
  cbv zeta. revert queue log w ls.
  induction i as [|i IH]; intros queue log w ls.
  - destruct (replay_any_log 0 w ls queue log) as (Hw & Hls & _).
    cbv zeta in *. cbn. now rewrite Hw, Hls.
  - destruct (replay_any_log (S i) w ls queue log) as (Hw & Hls & Hq).
    cbv zeta in *.
    change (OfflineStorage.replay_from fetch apiBaseUrl token (S (S i))
              (mkPass w ls queue log))
      with (replay_from (S i) (replay (S i) (mkPass w ls queue log))).
    destruct (replay (S i) (mkPass w ls queue log))
      as [w1 ls1 queue1 log1] eqn:Hst.
    cbn [pass_world pass_storage pass_queue] in Hw, Hls, Hq.
    cbn [repeat Overlap.run fold_left step first second duo_world
           duo_storage turn].
    rewrite <- Hw, <- Hls, <- Hq. apply (IH queue1 log1 w1 ls1).
Qed.

(** A pass of [Overlap] whose turns are taken with nothing in between
    is a pass of [retryFailedRequests]. *)
Lemma alone_is_retryFailedRequests other w ls :
  let d :=
    run (repeat First (S (length (syncQueue.getAll ls))))
      (mkDuo Idle other w ls) in
  let pass := retryFailedRequests fetch apiBaseUrl token w ls in
  first d = Returned /\ second d = other /\
  duo_world d = pass_world pass /\ duo_storage d = pass_storage pass.
Proof.
  cbv zeta. unfold retryFailedRequests.
  destruct (syncQueue.getAll ls) as [|operation queue] eqn:Hqueue.
  - cbn. rewrite Hqueue. cbn. auto.
  - cbn [length repeat Overlap.run fold_left step first second duo_world
           duo_storage turn].
    rewrite Hqueue. cbn [length Nat.eqb Nat.sub]. rewrite Nat.sub_0_r.
    apply (suspended_alone (length queue) (operation :: queue) [] other
             w ls).
Qed.

(** C1 fails on passes that overlap.  With two operations queued, a
    network that accepts the older one and never the newer one, and a
    second pass called while the first one waits for its first answer:
    the first pass leaves the newer operation in the stored queue, as
    it must; the second pass, whose array still has the older operation
    at index 0, gets its [ok] answer and calls [syncQueue.remove(0)],
    which takes the newer operation out of the stored queue.  The newer
    operation is lost although none of its replays got an [ok] response
    and its retry count is below 5. *)
Theorem overlapping_passes_lose_a_failing_operation
  (older newer : Operation) (w : World) (ls : storage) :
  syncQueue.getAll ls = [older; newer] ->
  (forall w0,
      result_ok (fst (fetch (operation_request apiBaseUrl token older) w0))
      = true) ->
  (forall w0,
      result_ok (fst (fetch (operation_request apiBaseUrl token newer) w0))
      = false) ->
  (op_retries newer < 5)%N ->
  let start := mkDuo Idle Idle w ls in
  let first_returned := run [First; Second; First; First] start in
  let both_returned := run second_starts_during_first start in
  (first first_returned = Returned /\
   syncQueue.getAll (duo_storage first_returned) = [newer]) /\
  (first both_returned = Returned /\ second both_returned = Returned /\
   syncQueue.getAll (duo_storage both_returned) = []).
Proof.
  intros Hqueue Hok Hfail Hretries. cbv zeta.
  set (queue := [older; newer]).
  set (bumped := <[1%nat := bump newer]> queue).
  set (w1 := snd (fetch (operation_request apiBaseUrl token newer) w)).
  set (w2 := snd (fetch (operation_request apiBaseUrl token older) w1)).
  set (w3 := snd (fetch (operation_request apiBaseUrl token newer) w2)).
  set (ls1 := written_back (snd (syncQueue.remove 0 ls))).
  assert (Hnewer : queue !! 1%nat = Some newer) by reflexivity.
  assert (Holder : bumped !! 0%nat = Some older) by reflexivity.
  assert (Hstored : syncQueue.getAll ls1 = [newer]).
  { unfold ls1. now rewrite getAll_setItem, getAll_remove, Hqueue. }
  assert (Hmid :
    run [First; Second; First; First] (mkDuo Idle Idle w ls)
    = mkDuo Returned (Suspended queue 1) w2 ls1).
  { unfold Overlap.run. cbn [fold_left].
    assert (H1 : step fetch apiBaseUrl token (mkDuo Idle Idle w ls) First
                 = mkDuo (Suspended queue 1) Idle w ls).
    { unfold step. cbn [first second duo_world duo_storage turn].
      now rewrite Hqueue. }
    rewrite H1.
    assert (H2 : step fetch apiBaseUrl token
                   (mkDuo (Suspended queue 1) Idle w ls) Second
                 = mkDuo (Suspended queue 1) (Suspended queue 1) w ls).
    { unfold step. cbn [first second duo_world duo_storage turn].
      now rewrite Hqueue. }
    rewrite H2. unfold step at 2.
    cbn [first second duo_world duo_storage].
    rewrite (turn_failing_next queue 0 newer w ls Hnewer (Hfail w)
               Hretries).
    unfold step. cbn [first second duo_world duo_storage].
    now rewrite (turn_ok_last _ older _ ls Holder (Hok _)). }
  split; [rewrite Hmid; split; [reflexivity | exact Hstored]|].
  assert (Hend :
    run second_starts_during_first (mkDuo Idle Idle w ls)
    = mkDuo Returned Returned
        (snd (fetch (operation_request apiBaseUrl token older) w3))
        (written_back (snd (syncQueue.remove 0 ls1)))).
  { unfold second_starts_during_first.
    change [First; Second; First; First; Second; Second]
      with ([First; Second; First; First] ++ [Second; Second]).
    unfold Overlap.run in *. rewrite fold_left_app, Hmid.
    cbn [fold_left]. unfold step at 2.
    cbn [first second duo_world duo_storage].
    rewrite (turn_failing_next queue 0 newer w2 ls1 Hnewer (Hfail w2)
               Hretries).
    unfold step. cbn [first second duo_world duo_storage].
    now rewrite (turn_ok_last _ older _ ls1 Holder (Hok _)). }
  rewrite Hend. cbn [first second duo_storage].
  split; [reflexivity|]. split; [reflexivity|].
  now rewrite getAll_setItem, getAll_remove, Hstored.
Qed.

End overlap.

(** The queue with a save and a delete, on a backend that accepts the
    save and answers 404 to the delete: after the two passes the
    delete is no longer queued. *)
Lemma overlapping_passes_lose_the_delete :
  let start := mkDuo Idle Idle tt Scenario.two_queued in
  let both_returned :=
    Overlap.run Cases.saving_only "" "" second_starts_during_first start in
  (syncQueue.getAll Scenario.two_queued
     = [Scenario.queued_save;
        mkOperation "DELETE" "/api/notes/n1" [] None 2000 0] /\
   (forall w0,
       result_ok
         (fst (Cases.saving_only
                 (operation_request "" "" Scenario.queued_save) w0))
       = true) /\
   (forall w0,
       result_ok
         (fst (Cases.saving_only
                 (operation_request "" ""
                    (mkOperation "DELETE" "/api/notes/n1" [] None 2000 0))
                 w0))
       = false)) /\
  syncQueue.getAll (duo_storage both_returned) = [].
Proof.
  assert (Hqueue :
    syncQueue.getAll Scenario.two_queued
    = [Scenario.queued_save;
       mkOperation "DELETE" "/api/notes/n1" [] None 2000 0])
    by (vm_compute; reflexivity).
  cbv zeta. split; [split; [exact Hqueue | split; reflexivity]|].
  destruct (overlapping_passes_lose_a_failing_operation Cases.saving_only
              "" "" Scenario.queued_save
              (mkOperation "DELETE" "/api/notes/n1" [] None 2000 0)
              tt Scenario.two_queued Hqueue (fun _ => eq_refl)
              (fun _ => eq_refl) eq_refl)
    as [_ (_ & _ & Hlost)].
  exact Hlost.
Defined.

End OverlapFacts.

(** ** The note endpoints on the values of a request body *)

Module WireFacts.
Import JSON Model JsFacts ServerFacts.
Import Wire.

Lemma strict_eq_eq a b : strict_eq a b = true -> a = b.
Proof.
  destruct a, b; cbn; try discriminate; try reflexivity.
  - intros H. now apply Bool.eqb_prop in H as ->.
  - intros H. now apply N.eqb_eq in H as ->.
  - intros H. now apply String.eqb_eq in H as ->.
Qed.

Lemma strict_eq_refl v :
  string_date (Some v) = true -> strict_eq v v = true.
Proof.
  destruct v; cbn; try discriminate; intros _. apply String.eqb_refl.
Qed.

Lemma key_of_rewrite text now note :
  key_of (rewrite_note text now note) = key_of note.
Proof. reflexivity. Qed.

(** The upsert of [POST /api/notes], once the request has passed the
    checks. *)
Lemma post_notes_accepted sub date content fresh notes :
  truthy (Some date) = true ->
  JsString.truthy content = true ->
  JsString.truthy (JsString.trim content) = true ->
  post_notes sub (Some date) (Some (JStr content)) fresh notes
  = let notes' :=
      match JsString.findIndex
              (fun note => String.eqb (stored_userId note) sub
                           && strict_eq (stored_date note) date)
              notes with
      | Some i =>
          alter (rewrite_note content (Server.fresh_updatedAt fresh)) i notes
      | None =>
          notes ++ [mkStored (Server.fresh_uuid fresh) sub date
                      (JsString.trim content) (Server.fresh_createdAt fresh)
                      (Server.fresh_updatedAt fresh)]
      end in
    (mkReply 201 (Some (userNotes sub notes')), notes').
Proof.
  intros Hdate Hcontent Htrimmed. unfold post_notes.
  rewrite Hdate. cbn [truthy]. now rewrite Hcontent, Htrimmed.
Qed.

(** A request is refused, whatever the notes, or it passes the checks:
    this depends on its [date] and [content] only. *)
Lemma post_notes_cases sub date content :
  (forall fresh notes,
      snd (post_notes sub date content fresh notes) = notes) \/
  exists d text,
    date = Some d /\ content = Some (JStr text) /\
    truthy (Some d) = true /\ JsString.truthy text = true /\
    JsString.truthy (JsString.trim text) = true.
Proof.
  unfold post_notes.
  destruct (truthy date) eqn:Hdate; [|now left].
  destruct (truthy content) eqn:Hcontent; [|now left].
  cbn [negb orb].
  destruct date as [d|]; [|now left].
  destruct content as [[| | |text| |]|]; try now left.
  destruct (JsString.truthy (JsString.trim text)) eqn:Htrimmed;
    [|now left].
  right. exists d, text. auto.
Qed.

Lemma post_notes_keeps_one_per_day sub date content fresh notes :
  string_date date = true ->
  one_note_per_day notes ->
  one_note_per_day (snd (post_notes sub date content fresh notes)).
Proof.
  intros Hstring Hnd.
  destruct (post_notes_cases sub date content)
    as [Hrefused | (d & text & -> & -> & Hdate & Hcontent & Htrimmed)];
    [now rewrite Hrefused|].
  rewrite (post_notes_accepted _ _ _ _ _ Hdate Hcontent Htrimmed).
  cbv zeta. cbn [snd]. unfold one_note_per_day in *.
  destruct (JsString.findIndex _ notes) as [i|] eqn:Hfind.
  - rewrite map_alter_id; [exact Hnd | apply key_of_rewrite].
  - rewrite map_app. cbn [map]. apply NoDup_app. repeat split.
    + exact Hnd.
    + intros k Hk Hk'. apply list_elem_of_singleton in Hk'. subst k.
      apply list_elem_of_In, in_map_iff in Hk as (note & Hkey & Hin).
      apply findIndex_None in Hfind. rewrite List.Forall_forall in Hfind.
      specialize (Hfind note Hin). cbn beta in Hfind.
      unfold key_of in Hkey. cbn in Hkey. injection Hkey as Hu Hd.
      rewrite Hu, Hd, String.eqb_refl, strict_eq_refl in Hfind;
        [discriminate | exact Hstring].
    + apply NoDup_singleton.
Qed.

Lemma put_note_keeps_one_per_day sub id content now notes :
  one_note_per_day notes ->
  one_note_per_day (snd (put_note sub id content now notes)).
Proof.
  unfold one_note_per_day, put_note. intros Hnd.
  destruct (negb (truthy content)); [exact Hnd|].
  destruct content as [[| | |text| |]|]; try exact Hnd.
  destruct (negb (JsString.truthy (JsString.trim text))); [exact Hnd|].
  destruct (JsString.findIndex _ notes) as [i|]; [|exact Hnd].
  cbn [snd]. rewrite map_alter_id; [exact Hnd | apply key_of_rewrite].
Qed.

Lemma delete_note_keeps_one_per_day sub id notes :
  one_note_per_day notes ->
  one_note_per_day (snd (delete_note sub id notes)).
Proof.
  unfold one_note_per_day, delete_note. intros Hnd.
  destruct (length notes =? length _)%nat; [exact Hnd|].
  cbn [snd]. now apply NoDup_map_filter.
Qed.

Lemma findIndex_map {A B} (f : A -> B) (p : B -> bool) (l : list A) :
  JsString.findIndex p (map f l) = JsString.findIndex (fun x => p (f x)) l.
Proof. induction l as [|x l IH]; cbn; [reflexivity|]. now rewrite IH. Qed.

Lemma alter_map {A B} (f : A -> B) (g : B -> B) (g' : A -> A) i
  (l : list A) :
  (forall x, g (f x) = f (g' x)) ->
  alter g i (map f l) = map f (alter g' i l).
Proof.
  intros Hg. revert i. induction l as [|x l IH]; intros [|i];
    cbn; rewrite ?Hg, ?(IH i); reflexivity.
Qed.

Lemma filter_map {A B} (f : A -> B) (p : B -> bool) (l : list A) :
  List.filter p (map f l) = map f (List.filter (fun x => p (f x)) l).
Proof.
  induction l as [|x l IH]; cbn; [reflexivity|].
  destruct (p (f x)); cbn; now rewrite IH.
Qed.

(** The endpoints of [Server] are those of [Wire] on requests whose
    date and content are strings, or absent. *)
Lemma typed_requests (call : Server.Call) (notes : list Note) :
  handle (of_call call) (map of_note notes)
  = (of_reply (fst (Server.handle call notes)),
     map of_note (snd (Server.handle call notes))).
Proof.
  destruct call as [sub date content fresh|sub noteId content now
                   |sub noteId];
    cbn [of_call handle Server.handle].
  - unfold post_notes, Server.post_notes, Server.blank.
    destruct date as [date|]; [|reflexivity].
    cbn [option_map truthy JsString.present].
    destruct (JsString.truthy date); [|reflexivity].
    destruct content as [content|]; [|reflexivity].
    cbn [option_map truthy negb orb].
    destruct (JsString.truthy content); [|reflexivity].
    cbn [negb orb].
    destruct (JsString.truthy (JsString.trim content)); [|reflexivity].
    cbn [negb default from_option id fst snd of_reply
           Server.reply_status Server.reply_notes option_map].
    rewrite findIndex_map. cbn [of_note stored_userId stored_date strict_eq].
    destruct (JsString.findIndex _ notes) as [i|].
    + rewrite (alter_map of_note _
                 (Server.rewrite_note content (Server.fresh_updatedAt fresh)))
        by reflexivity.
      unfold userNotes, Server.userNotes. now rewrite filter_map.
    + change [mkStored (Server.fresh_uuid fresh) sub (JStr date)
                (JsString.trim content) (Server.fresh_createdAt fresh)
                (Server.fresh_updatedAt fresh)]
        with (map of_note
                [mkNote (Server.fresh_uuid fresh) sub date
                   (JsString.trim content) (Server.fresh_createdAt fresh)
                   (Server.fresh_updatedAt fresh)]).
      rewrite <- map_app.
      unfold userNotes, Server.userNotes. now rewrite filter_map.
  - unfold put_note, Server.put_note, Server.blank.
    destruct content as [content|]; [|reflexivity].
    cbn [option_map truthy negb orb].
    destruct (JsString.truthy content); [|reflexivity].
    cbn [negb orb].
    destruct (JsString.truthy (JsString.trim content)); [|reflexivity].
    cbn [negb default from_option id].
    rewrite findIndex_map. cbn [of_note stored_userId stored_id].
    destruct (JsString.findIndex _ notes) as [i|]; [|reflexivity].
    cbn [fst snd of_reply Server.reply_status Server.reply_notes
           option_map].
    rewrite (alter_map of_note _ (Server.rewrite_note content now))
      by reflexivity.
    unfold userNotes, Server.userNotes. now rewrite filter_map.
  - unfold delete_note, Server.delete_note. cbv zeta.
    rewrite filter_map, !length_map.
    cbn [of_note stored_userId stored_id].
    destruct (length notes =? length _)%nat; [reflexivity|].
    cbn [fst snd of_reply Server.reply_status Server.reply_notes
           option_map].
    unfold userNotes, Server.userNotes. now rewrite filter_map.
Qed.

(** C5, as the specification states it, fails: [POST /api/notes] does
    not check that [date] is a string, and an array is never [===] to
    the array stored by an earlier request; the same save with a date
    that is an array, handled twice, stores two notes of the same user
    and date. *)
Lemma array_date_is_stored_twice :
  one_note_per_day [] /\
  ~ one_note_per_day
      (run [Cases.save_with_array_date Scenario.first_handling;
            Cases.save_with_array_date Scenario.second_handling] []).
Proof.
  split; [apply NoDup_nil_2|].
  unfold one_note_per_day. intros Hnd.
  assert (Hkeys :
    map key_of
      (run [Cases.save_with_array_date Scenario.first_handling;
            Cases.save_with_array_date Scenario.second_handling] [])
    = [("u1", JArr [JStr "2024-06-01"]); ("u1", JArr [JStr "2024-06-01"])])
    by (vm_compute; reflexivity).
  rewrite Hkeys in Hnd. apply NoDup_cons in Hnd as [Hnotin _].
  apply Hnotin. left.
Qed.

(** C5, amended. When the [date] of every save is a string, every note
    endpoint keeps the invariant that there is at most one note for a
    user and a date: from a state without duplicates, no sequence of
    [POST /api/notes], [PUT /api/notes/:id] and [DELETE /api/notes/:id]
    requests, handled one after the other, leads to a state with two
    notes of the same [userId] and [date]. *)
Theorem endpoints_keep_one_note_per_day (calls : list Call)
  (notes : list Stored) :
  Forall (fun call => dated call = true) calls ->
  one_note_per_day notes -> one_note_per_day (run calls notes).
Proof.
  intros Hcalls. revert notes.
  induction Hcalls as [|call calls Hcall _ IH]; intros notes Hnd;
    [exact Hnd|].
  unfold run in *. cbn [fold_left]. apply IH.
  destruct call as [sub date content fresh|sub id content now|sub id];
    cbn [handle dated] in *.
  - now apply post_notes_keeps_one_per_day.
  - now apply put_note_keeps_one_per_day.
  - now apply delete_note_keeps_one_per_day.
Qed.

(** Two notes of one user on two days, then a save, a delete, the same
    save again and an update. *)
Lemma replayed_saves_keep_one_note_per_day :
  let calls :=
    [Cases.replayed_save Scenario.first_handling;
     Delete "u1" "n2";
     Cases.replayed_save Scenario.second_handling;
     Put "u1" "n1" (Some (JStr "call Bob back"))
       "2024-06-01T10:00:00.002Z"] in
  let notes := map of_note [Scenario.confirmed_note; Scenario.other_note] in
  Forall (fun call => dated call = true) calls /\
  one_note_per_day notes /\
  one_note_per_day (run calls notes).
Proof.
  assert (Hcalls :
    Forall (fun call => dated call = true)
      [Cases.replayed_save Scenario.first_handling;
       Delete "u1" "n2";
       Cases.replayed_save Scenario.second_handling;
       Put "u1" "n1" (Some (JStr "call Bob back"))
         "2024-06-01T10:00:00.002Z"]).
  { repeat (apply List.Forall_cons; [reflexivity|]). apply List.Forall_nil. }
  assert (Hnotes :
    one_note_per_day
      (map of_note [Scenario.confirmed_note; Scenario.other_note])).
  { unfold one_note_per_day. apply NoDup_cons. split.
    - intros Hin. apply list_elem_of_singleton in Hin. discriminate.
    - apply NoDup_singleton. }
  cbv zeta. split; [exact Hcalls|]. split; [exact Hnotes|].
  apply (endpoints_keep_one_note_per_day _ _ Hcalls Hnotes).
Defined.

(** C6, as the specification states it, fails: the second handling of
    the same save request sets [updatedAt] to the time of the second
    handling, so the stored note differs from the one stored by the
    first handling. *)
Lemma replayed_save_changes_updatedAt :
  run [Cases.replayed_save Scenario.first_handling;
       Cases.replayed_save Scenario.second_handling] []
  <> run [Cases.replayed_save Scenario.first_handling] [].
Proof. vm_compute. discriminate. Qed.

(** C6, amended. For a [date] that is a string, the second handling of
    the same save request (same user, date and content) changes nothing
    in the stored notes but the [updatedAt] of the note of that user
    and date, which becomes the time read by the second handling: the
    states after one and after two handlings hold the same notes once
    [updatedAt] is left out, whatever ids and times the handlings
    read. *)
Theorem replayed_save_is_idempotent_up_to_updatedAt
  (sub : string) (date content : option json)
  (first second : Server.Fresh) (notes : list Stored) :
  string_date date = true ->
  let once := snd (post_notes sub date content first notes) in
  let twice := snd (post_notes sub date content second once) in
  map forget_updatedAt twice = map forget_updatedAt once /\
  (twice = once \/
   exists i note,
     once !! i = Some note /\
     stored_userId note = sub /\ Some (stored_date note) = date /\
     twice = <[i := with_updatedAt (Server.fresh_updatedAt second) note]>
               once).
Proof.
  intros Hstring. cbv zeta.
  destruct (post_notes_cases sub date content)
    as [Hrefused | (d & text & -> & -> & Hdate & Hcontent & Htrimmed)].
  - rewrite !Hrefused. split; [reflexivity | now left].
  - rewrite !(post_notes_accepted _ _ _ _ _ Hdate Hcontent Htrimmed).
    cbv zeta. cbn [snd].
    set (p := fun note : Stored =>
                String.eqb (stored_userId note) sub
                && strict_eq (stored_date note) d).
    destruct (JsString.findIndex p notes) as [i|] eqn:Hfind.
    + rewrite findIndex_alter, Hfind by reflexivity.
      destruct (findIndex_lookup _ _ _ Hfind) as (x & Hx & Hpx).
      apply andb_prop in Hpx as [Hu Hd].
      apply String.eqb_eq in Hu. apply strict_eq_eq in Hd.
      split.
      * rewrite list_alter_alter_eq. now apply map_alter_ext.
      * right.
        exists i, (rewrite_note text (Server.fresh_updatedAt first) x).
        rewrite list_lookup_alter_eq, Hx.
        cbn [fmap option_fmap option_map].
        repeat split; [exact Hu | now cbn; rewrite Hd |].
        rewrite list_insert_alter. apply list_alter_ext; [|reflexivity].
        intros y Hy. rewrite list_lookup_alter_eq, Hx in Hy.
        now injection Hy as <-.
    + rewrite findIndex_app_last;
        [|exact Hfind
         |unfold p; cbn; rewrite String.eqb_refl;
          now apply strict_eq_refl].
      rewrite alter_app_r_alt by lia.
      rewrite Nat.sub_diag. cbn [alter list_alter].
      split; [now rewrite !map_app|].
      right. eexists (length notes), _. split.
      * rewrite lookup_app_r, Nat.sub_diag by lia. reflexivity.
      * cbn [stored_userId stored_date]. repeat split.
        rewrite list_insert_alter, alter_app_r_alt, Nat.sub_diag by lia.
        reflexivity.
Qed.

(** The save of the first note of a day, handled twice. *)
Lemma replayed_save_of_first_note :
  let date := Some (JStr "2024-06-01") in
  let content := Some (JStr "buy milk") in
  let once :=
    snd (post_notes "u1" date content Scenario.first_handling []) in
  let twice :=
    snd (post_notes "u1" date content Scenario.second_handling once) in
  string_date date = true /\
  map forget_updatedAt twice = map forget_updatedAt once.
Proof.
  cbv zeta. split; [reflexivity|].
  apply (replayed_save_is_idempotent_up_to_updatedAt "u1"
           (Some (JStr "2024-06-01")) (Some (JStr "buy milk"))
           Scenario.first_handling Scenario.second_handling [] eq_refl).
Defined.

End WireFacts.
